(** * Shallow embedding of the task-execution core of phillipcheng/mcps

    Modelled sources:
    - [src/unnamed/part_008]                 pollForCondition
    - [src/browser/engine/proxy.js]          createSelectiveProxy, connectViaMac,
                                             createBrowserPool
    - [src/unnamed/part_001]                 runJanusTask, createTaskUtils
    - [src/browser/engine/utils/index.js]    handleTaskError
    - [src/unnamed/part_002]                 runChainedTask
    - [src/browser/routes/tasks.js]          POST /api/tasks/:id/restart

    JavaScript strings are [string]; [s.includes(t)] is [includes s t].
    Timestamps are integers (milliseconds); console logging is dropped
    unless a claim reads the log. *)

From Stdlib Require Import String ZArith Lia List Bool.
From stdpp Require Import base gmap strings.
Import ListNotations.
Open Scope string_scope.

(** JavaScript's [s.includes(t)]: [t] occurs as a contiguous substring of [s]. *)
Fixpoint includes (s t : string) : bool :=
  String.prefix t s ||
  match s with
  | EmptyString => false
  | String _ s' => includes s' t
  end.

(** JavaScript truthiness of a nullable reference: [!!x]. *)
Definition truthy {A} (o : option A) : bool :=
  match o with Some _ => true | None => false end.

(** [arr.some(d => s.includes(d))] *)
Definition includes_some (s : string) (ds : list string) : bool :=
  existsb (includes s) ds.

(* ------------------------------------------------------------------ *)
(** ** pollForCondition (src/unnamed/part_008) *)
Module Poll.

(** What one call of [checkFn] does: resolve with a result whose
    [ready] field is given, or throw an error with a message. *)
Inductive check_outcome :=
| Returns (ready : bool)
| Throws (message : string).

(** The object returned by [pollForCondition]. *)
Inductive poll_result :=
| ReadyResult                          (* the check's own result, ready = true *)
| FatalError (error : string)          (* {ready:false, fatalError:true, error} *)
| TooManyErrors (error : string)       (* {ready:false, tooManyErrors:true, error} *)
| TimedOut.                            (* {ready:false, timedOut:true} *)

Definition ready (r : poll_result) : bool :=
  match r with ReadyResult => true | _ => false end.

Definition fatalError (r : poll_result) : bool :=
  match r with FatalError _ => true | _ => false end.

Definition fatalErrors : list string :=
  ["detached Frame"; "Session closed"; "Target closed";
   "Browser disconnected"; "not defined"].

Definition is_fatal (message : string) : bool :=
  includes_some message fatalErrors.

(** [Math.ceil(timeout / interval)] for a positive integer [interval]
    (the options are millisecond counts). *)
Definition maxAttempts (timeout interval : Z) : nat :=
  Z.to_nat ((timeout + interval - 1) / interval).

(** The [for] loop: [i] is the loop index, [left] the iterations still
    to run, [consecutiveErrors] the error counter. [checkFn] is given the
    index of its invocation. The second component counts the calls of
    [checkFn]. *)
Fixpoint poll_loop (checkFn : nat -> check_outcome)
         (i left consecutiveErrors : nat) : poll_result * nat :=
  match left with
  | O => (TimedOut, 0)
  | S left' =>
      match checkFn i with
      | Returns true => (ReadyResult, 1)
      | Returns false =>
          let '(r, n) := poll_loop checkFn (S i) left' 0 in (r, S n)
      | Throws m =>
          let consecutiveErrors' := S consecutiveErrors in
          if is_fatal m then (FatalError m, 1)
          else if Nat.leb 5 consecutiveErrors' then (TooManyErrors m, 1)
          else let '(r, n) := poll_loop checkFn (S i) left' consecutiveErrors'
               in (r, S n)
      end
  end.

Definition pollForCondition (checkFn : nat -> check_outcome)
           (timeout interval : Z) : poll_result * nat :=
  poll_loop checkFn 0 (maxAttempts timeout interval) 0.

(** The defaults [timeout = 30000], [interval = 1000]. *)
Definition pollForCondition_default (checkFn : nat -> check_outcome) :=
  pollForCondition checkFn 30000 1000.

End Poll.

(* ------------------------------------------------------------------ *)
(** ** createBrowserPool (src/browser/engine/proxy.js, lines 160-335)

    A browser handle is a number; [puppeteer.launch] hands out the handle
    and the process id [next_proc] (the operating system's next process),
    so a launch always yields a process id no earlier launch had.
    [idleTimer] is the deadline of the armed [setTimeout], or [None] when
    no timer is pending. Each method runs to completion (its awaits are
    not interleaved with other calls). *)
Module Pool.
Local Open Scope Z_scope.

Record pool := mkPool {
  browser : option nat;
  pid : option nat;
  lastUsed : option Z;
  createdAt : option Z;
  inUse : bool;
  idleTimeout : Z;
  maxAge : Z;
  idleTimer : option Z;
  urlHistory : list string;
  taskHistory : list string;
  next_proc : nat
}.

(** [createBrowserPool()]; [first_pid] is the process id the operating
    system gives the first launched browser. *)
Definition createBrowserPool (first_pid : nat) : pool :=
  mkPool None None None None false (5 * 60 * 1000) (10 * 60 * 1000) None [] [] first_pid.

(** [{ browser, pid, cached }] *)
Record acquired := mkAcquired {
  a_browser : nat;
  a_pid : option nat;
  cached : bool
}.

Definition set_idleTimer (t : option Z) (p : pool) : pool :=
  mkPool p.(browser) p.(pid) p.(lastUsed) p.(createdAt) p.(inUse)
         p.(idleTimeout) p.(maxAge) t p.(urlHistory) p.(taskHistory) p.(next_proc).

Definition drop_browser (p : pool) : pool :=
  mkPool None None p.(lastUsed) p.(createdAt) p.(inUse)
         p.(idleTimeout) p.(maxAge) p.(idleTimer) p.(urlHistory) p.(taskHistory) p.(next_proc).

(** [this.createdAt || 0] *)
Definition createdAt_or_0 (p : pool) : Z :=
  match p.(createdAt) with Some c => c | None => 0 end.

(** The launch branch: [puppeteer.launch], then record the new browser. *)
Definition launch (now : Z) (p : pool) : acquired * pool :=
  let b := p.(next_proc) in
  (mkAcquired b (Some b) false,
   mkPool (Some b) (Some b) (Some now) (Some now) true
          p.(idleTimeout) p.(maxAge) p.(idleTimer) [] [] (S b)).

(** [getBrowser] at time [now]; [alive] says whether the liveness probe
    [this.browser.pages()] resolves. *)
Definition getBrowser (now : Z) (alive : bool) (p0 : pool) : acquired * pool :=
  (* clear the idle timer *)
  let p := set_idleTimer None p0 in
  match p.(browser) with
  | Some b =>
      let age := now - createdAt_or_0 p in
      if Z.ltb p.(maxAge) age then
        (* too old: close and fall through to launch *)
        launch now (drop_browser p)
      else if alive then
        (mkAcquired b p.(pid) true,
         mkPool p.(browser) p.(pid) (Some now) p.(createdAt) true
                p.(idleTimeout) p.(maxAge) p.(idleTimer)
                p.(urlHistory) p.(taskHistory) p.(next_proc))
      else
        (* cached browser disconnected *)
        launch now (drop_browser p)
  | None => launch now p
  end.

(** [release] at time [now]: clear [inUse] and (re)arm the idle timer;
    an armed timer is cleared first, so at most one is pending. *)
Definition release (now : Z) (p : pool) : pool :=
  mkPool p.(browser) p.(pid) (Some now) p.(createdAt) false
         p.(idleTimeout) p.(maxAge) (Some (now + p.(idleTimeout)))
         p.(urlHistory) p.(taskHistory) p.(next_proc).

(** The idle timer's callback. *)
Definition idle_callback (p : pool) : pool :=
  if negb p.(inUse) && truthy p.(browser) then drop_browser p else p.

(** Timers whose deadline is reached by [now] fire before the event
    scheduled at [now]. *)
Definition fire_due (now : Z) (p : pool) : pool :=
  match p.(idleTimer) with
  | Some d => if Z.leb d now then idle_callback (set_idleTimer None p) else p
  | None => p
  end.

(** The [disconnected] listener registered on browser [b]. *)
Definition on_disconnected (b : nat) (p : pool) : pool :=
  if decide (p.(browser) = Some b) then
    mkPool None None p.(lastUsed) p.(createdAt) false
           p.(idleTimeout) p.(maxAge) p.(idleTimer)
           p.(urlHistory) p.(taskHistory) p.(next_proc)
  else p.

(** The pool with its [inUse] flag set to [u]. *)
Definition with_inUse (u : bool) (p : pool) : pool :=
  mkPool p.(browser) p.(pid) p.(lastUsed) p.(createdAt) u
         p.(idleTimeout) p.(maxAge) p.(idleTimer) p.(urlHistory) p.(taskHistory) p.(next_proc).

(** [getStatus().hasInstance] *)
Definition hasInstance (p : pool) : bool := truthy p.(browser).

(** Calls made on one pool instance, each stamped with its time. *)
Inductive event :=
| EvGetBrowser (now : Z) (alive : bool)
| EvRelease (now : Z)
| EvDisconnected (now : Z) (b : nat)
| EvWait (now : Z).

Definition event_time (e : event) : Z :=
  match e with
  | EvGetBrowser t _ | EvRelease t | EvDisconnected t _ | EvWait t => t
  end.

(** One event: due timers fire, then the call runs; a [getBrowser]
    reports what it returned. *)
Definition step (e : event) (p0 : pool) : option acquired * pool :=
  let p := fire_due (event_time e) p0 in
  match e with
  | EvGetBrowser t alive => let '(a, p') := getBrowser t alive p in (Some a, p')
  | EvRelease t => (None, release t p)
  | EvDisconnected _ b => (None, on_disconnected b p)
  | EvWait _ => (None, p)
  end.

Fixpoint run (evs : list event) (p : pool) : list (option acquired) * pool :=
  match evs with
  | [] => ([], p)
  | e :: evs' =>
      let '(o, p') := step e p in
      let '(os, p'') := run evs' p' in (o :: os, p'')
  end.

(** What every reachable pool satisfies: [pid] tracks [browser], and
    the tracked process was launched before [next_proc]. *)
Definition fresh_inv (p : pool) : Prop :=
  p.(pid) = p.(browser) /\ (forall b, p.(browser) = Some b -> (b < p.(next_proc))%nat).

End Pool.

(* ------------------------------------------------------------------ *)
(** ** Selective proxy (src/browser/engine/proxy.js, lines 1-140)

    The sockets are replaced by the outcomes the network produces: the
    direct [net.connect] either connects or emits an [error] with a code;
    the tunnel helper's socket either answers its CONNECT (with a
    response that does or does not contain [200]) or errors. A handler
    run records the outbound connections it opens, in order. Ports are
    numbers: [net.connect] validates its port synchronously and throws
    [ERR_SOCKET_BAD_PORT] unless it is an integer in [0..65535]; nothing
    in the handler catches that exception. *)
Module Proxy.
Local Open Scope Z_scope.

(** [str.split(':')] *)
Fixpoint split_colon (s : string) : list string :=
  match s with
  | EmptyString => [EmptyString]
  | String c s' =>
      if Ascii.eqb c (Ascii.ascii_of_nat 58) then EmptyString :: split_colon s'
      else match split_colon s' with
           | seg :: segs => String c seg :: segs
           | [] => [String c EmptyString]
           end
  end.

(** The white space [parseInt] skips, among single-byte characters:
    tab, line feed, vertical tab, form feed, carriage return, space and
    no-break space. *)
Definition is_js_space (c : Ascii.ascii) : bool :=
  let n := Ascii.nat_of_ascii c in
  (Nat.leb 9 n && Nat.leb n 13) || Nat.eqb n 32 || Nat.eqb n 160.

Fixpoint trim_start (s : string) : string :=
  match s with
  | EmptyString => EmptyString
  | String c s' => if is_js_space c then trim_start s' else s
  end.

(** The value of [c] as a digit of [radix] (digits, then letters of
    either case), [None] when it is not one. *)
Definition digit_value (radix : Z) (c : Ascii.ascii) : option Z :=
  let n := Z.of_nat (Ascii.nat_of_ascii c) in
  let v := if (48 <=? n) && (n <=? 57) then Some (n - 48)
           else if (97 <=? n) && (n <=? 122) then Some (n - 87)
           else if (65 <=? n) && (n <=? 90) then Some (n - 55)
           else None in
  match v with Some d => if d <? radix then Some d else None | None => None end.

(** The longest prefix of [radix] digits; [None] when there is none. *)
Fixpoint parse_digits (radix : Z) (s : string) (acc : option Z) : option Z :=
  match s with
  | EmptyString => acc
  | String c s' =>
      match digit_value radix c with
      | Some d => parse_digits radix s' (Some (radix * match acc with Some a => a | None => 0 end + d))
      | None => acc
      end
  end.

Definition ascii_is (c : Ascii.ascii) (code : nat) : bool :=
  Nat.eqb (Ascii.nat_of_ascii c) code.

(** [parseInt(s)] with no radix: leading white space, an optional sign,
    an optional [0x]/[0X] prefix selecting base 16 (base 10 otherwise),
    then the longest digit prefix. [None] is NaN, which is also the
    result for [parseInt(undefined)] (no port in the URL). *)
Definition parseInt (s : option string) : option Z :=
  match s with
  | None => None
  | Some s0 =>
      let s1 := trim_start s0 in
      let '(sign, s2) :=
        match s1 with
        | String c r => if ascii_is c 45 then (-1, r)
                        else if ascii_is c 43 then (1, r) else (1, s1)
        | EmptyString => (1, s1)
        end in
      let '(radix, s3) :=
        match s2 with
        | String z (String x r) =>
            if ascii_is z 48 && (ascii_is x 120 || ascii_is x 88) then (16, r) else (10, s2)
        | _ => (10, s2)
        end in
      option_map (fun v => sign * v) (parse_digits radix s3 None)
  end.

(** [parseInt(port) || 443]: NaN and 0 (also [-0]) are falsy. *)
Definition port_or_443 (p : option Z) : Z :=
  match p with Some n => if n =? 0 then 443 else n | None => 443 end.

(** The check of [net.connect] on its port. *)
Definition valid_port (p : Z) : bool := (0 <=? p) && (p <=? 65535).

(** [proxyConfig]: the route table. [macProxyDomains] may be unset. *)
Record proxy_config := mkProxyConfig {
  macProxyDomains : option (list string);
  macProxyPort : Z;
  proxyEnabled : bool
}.

Inductive direct_outcome :=
| DirectConnected
| DirectError (code : string).

Inductive tunnel_outcome :=
| TunnelAnswers (response : string)
| TunnelError.

(** An outbound connection opened by the handler. *)
Inductive attempt :=
| Direct (hostname : string) (port : Z)
| ViaMac (hostname : string) (port : Z) (macPort : Z).

(** What the client socket finally receives. *)
Inductive client_end :=
| Established          (* [200 Connection Established], then spliced *)
| Ended                (* [clientSocket.end()] *)
| BadGateway           (* [clientSocket.end('... 502 Bad Gateway ...')] *)
| Thrown.              (* [net.connect] threw [ERR_SOCKET_BAD_PORT] *)

(** [connectViaMac(hostname, targetPort, clientSocket, head, macPort)];
    [targetPort] only goes into the CONNECT line, [macPort] is given to
    [net.connect]. *)
Definition connectViaMac (hostname : string) (targetPort macPort : Z)
           (tunnel : tunnel_outcome) : list attempt * client_end :=
  if valid_port macPort then
    ([ViaMac hostname targetPort macPort],
     match tunnel with
     | TunnelAnswers response =>
         if includes response "200" then Established else Ended
     | TunnelError => BadGateway
     end)
  else ([], Thrown).

Definition is_dns_error (code : string) : bool :=
  String.eqb code "ENOTFOUND" || String.eqb code "EAI_AGAIN".

(** The [connect] handler of [createSelectiveProxy] for the request
    target [url]; [direct] is the outcome of a direct [net.connect] to a
    host, [tunnel] that of the tunnel helper's socket. *)
Definition on_connect (cfg : proxy_config) (url : string)
           (direct : string -> Z -> direct_outcome)
           (tunnel : tunnel_outcome) : list attempt * client_end :=
  let parts := split_colon url in
  let hostname := match parts with h :: _ => h | [] => EmptyString end in
  let port := nth_error parts 1 in
  let targetPort := port_or_443 (parseInt port) in
  let macPort := cfg.(macProxyPort) in
  let domains := match cfg.(macProxyDomains) with Some ds => ds | None => [] end in
  let useMacProxy := includes_some hostname domains in
  if useMacProxy then connectViaMac hostname targetPort macPort tunnel
  else if negb (valid_port targetPort) then ([], Thrown)
  else
    match direct hostname targetPort with
    | DirectConnected => ([Direct hostname targetPort], Established)
    | DirectError code =>
        if is_dns_error code then
          let '(atts, e) := connectViaMac hostname targetPort macPort tunnel in
          (Direct hostname targetPort :: atts, e)
        else ([Direct hostname targetPort], BadGateway)
    end.



Definition url_hostname (url : string) : string :=
  match split_colon url with h :: _ => h | [] => EmptyString end.

End Proxy.

(* ------------------------------------------------------------------ *)
(** ** runJanusTask (src/unnamed/part_001, lines 38-124) and
       handleTaskError (src/browser/engine/utils/index.js, lines 35-91)

    The page automation between [getBrowser] and the success branch is
    out of scope: [logic retryCount] is what it does in the call with
    that [retryCount], [None] when it finishes and [Some m] when it
    throws an [Error] with message [m]. The browser is acquired in every
    call. *)
Module Janus.

Definition MAX_RETRIES : nat := 3.

(** The field [idl_branch] this runner reads ([None] for [null]), the
    fields it writes, plus counters of the calls of [runJanusTask] and
    of the browsers closed for a retry. *)
Record jtask := mkJTask {
  idl_branch : option string;
  status : string;
  error : option string;
  result : option string;
  attempts : nat;
  retry_closes : nat
}.

Definition start_call (t : jtask) : jtask :=
  mkJTask t.(idl_branch) t.(status) t.(error) t.(result) (S t.(attempts)) t.(retry_closes).

Definition set_terminal (st : string) (err res : option string) (t : jtask) : jtask :=
  mkJTask t.(idl_branch) st err res t.(attempts) t.(retry_closes).

(** [handleTaskError]: [task.status = 'error'; task.error = error.message]. *)
Definition handleTaskError (message : string) (t : jtask) : jtask :=
  set_terminal "error" (Some message) t.(result) t.

(** A template literal's rendering of a string field. *)
Definition template_str (o : option string) : string :=
  match o with Some s => s | None => "null" end.

Definition is_cookie_error (m : string) : bool :=
  includes m "refresh cookies" || includes m "Not logged in".

Definition is_context_destroyed (m : string) : bool :=
  includes m "Execution context was destroyed".

(** [runJanusTask(taskId, task, retryCount)]. The self-call only happens
    with [retryCount < MAX_RETRIES] and raises [retryCount], so the
    recursion depth from [retryCount] is at most
    [MAX_RETRIES - retryCount + 1]; [fuel] bounds it (see
    [run_janus_fuel_enough]). *)
Fixpoint runJanusTask_fuel (fuel : nat) (logic : nat -> option string)
         (retryCount : nat) (t0 : jtask) : jtask :=
  match fuel with
  | O => t0
  | S fuel' =>
      let t := start_call t0 in
      match logic retryCount with
      | None =>
          set_terminal "completed" t.(error)
                       (Some ("IDL branch updated to " +:+ template_str t.(idl_branch))) t
      | Some m =>
          if is_cookie_error m then
            set_terminal "error" (Some m) t.(result) t
          else if is_context_destroyed m && Nat.ltb retryCount MAX_RETRIES then
            let t' := mkJTask t.(idl_branch) t.(status) t.(error) t.(result) t.(attempts)
                              (S t.(retry_closes)) in
            runJanusTask_fuel fuel' logic (S retryCount) t'
          else handleTaskError m t
      end
  end.

Definition runJanusTask (logic : nat -> option string) (retryCount : nat)
           (t : jtask) : jtask :=
  runJanusTask_fuel (S MAX_RETRIES - retryCount + 1) logic retryCount t.

(** A task as the creating route hands it to the runner; [branch] is
    [parameters.idl_branch || null]. *)
Definition fresh_task (branch : option string) : jtask :=
  mkJTask branch "running" None None 0 0.

End Janus.

(* ------------------------------------------------------------------ *)
(** ** Task objects (src/browser/routes/tasks.js, src/unnamed/part_004)

    A log line is its timestamp and its text. *)
Module Task.

Definition log_line := (Z * string)%type.

(** The parameter fields a task and each of its subtasks carry. *)
Record params := mkParams {
  psm : option string;
  env : option string;
  idl_branch : option string;
  idl_version : option string;
  api_group_id : option string
}.

Record subtask := mkSubtask {
  st_type : string;
  st_params : params;
  st_status : string;
  st_logs : list log_line;
  st_startTime : option Z;
  st_endTime : option Z;
  st_error : option string;
  st_result : option string;
  st_stage : option string
}.

Record task := mkTask {
  type : string;
  name : option string;
  t_params : params;
  dry_run : option bool;
  status : string;
  stage : option string;
  logs : list log_line;
  startTime : option Z;
  endTime : option Z;
  error : option string;
  result : option string;
  isChained : bool;
  subtasks : option (list subtask);
  currentIndex : nat
}.

(** [subtask.type === 'janus' ? 'janus_mini_update' :
     subtask.type === 'workorder' ? 'janus_workorder_execute' : subtask.type] *)
Definition resolve_type (ty : string) : string :=
  if String.eqb ty "janus" then "janus_mini_update"
  else if String.eqb ty "workorder" then "janus_workorder_execute"
  else ty.

(** Writes to the lifecycle fields of a task. *)
Definition set_lifecycle (t : task) (st : string) (stg : option string)
           (lg : list log_line) (start fin : option Z) (err res : option string) : task :=
  mkTask t.(type) t.(name) t.(t_params) t.(dry_run) st stg lg start fin err res
         t.(isChained) t.(subtasks) t.(currentIndex).

Definition set_subtasks (t : task) (sts : option (list subtask)) (ci : nat) : task :=
  mkTask t.(type) t.(name) t.(t_params) t.(dry_run) t.(status) t.(stage) t.(logs)
         t.(startTime) t.(endTime) t.(error) t.(result) t.(isChained) sts ci.

(** [String(x)] of a nullable string, as a template literal prints it. *)
Definition js_str (o : option string) : string :=
  match o with Some s => s | None => "null" end.

(** Decimal rendering of a natural number. *)
Fixpoint digits_rev (fuel n : nat) : list nat :=
  match fuel with
  | O => []
  | S f => if Nat.ltb n 10 then [n] else Nat.modulo n 10 :: digits_rev f (Nat.div n 10)
  end.

Definition show_nat (n : nat) : string :=
  fold_left (fun acc d => String.append acc (String (Ascii.ascii_of_nat (48 + d)) EmptyString))
            (rev (digits_rev (S n) n)) EmptyString.

End Task.

(* ------------------------------------------------------------------ *)
(** ** runChainedTask (src/unnamed/part_002)

    The per-subtask runners are given by [runner]: [runner i ty] is what
    the runner of type [ty] leaves in the temporary task
    [${taskId}_sub${i}], or the exception it rejects with. Logging,
    [saveTaskToDb] and the copying of screenshots are not modelled. The
    trace lists the subtask indices whose [status] was set to
    ['running'] and the runner calls made. *)
Module Chain.
Import Task.

Inductive run_outcome :=
| Finished (status : string) (logs : list log_line) (endTime : option Z)
           (error result : option string) (stage : option string)
| Raised (message : string).

Record trace := mkTrace {
  started : list nat;
  invoked : list (nat * string)
}.

Definition tr_start (i : nat) (tr : trace) : trace :=
  mkTrace (tr.(started) ++ [i]) tr.(invoked).

Definition tr_invoke (i : nat) (ty : string) (tr : trace) : trace :=
  mkTrace tr.(started) (tr.(invoked) ++ [(i, ty)]).

Definition has_runner (ty : string) : bool :=
  String.eqb ty "janus_mini_update" || String.eqb ty "janus_workorder_execute".

(** The temporary task's state after the [if/else if] that picks a
    runner: untouched ([status: 'running'], empty logs, null fields)
    when neither branch applies. *)
Definition sub_outcome (runner : nat -> string -> run_outcome) (i : nat)
           (ty : string) : run_outcome :=
  if has_runner ty then runner i ty
  else Finished "running" [] None None None None.

Definition run_subtask (runner : nat -> string -> run_outcome) (i : nat)
           (ty : string) (tr : trace) : run_outcome * trace :=
  (sub_outcome runner i ty, if has_runner ty then tr_invoke i ty tr else tr).

(** Whether the loop goes on after an outcome: only a copied status
    ['error'] or an exception returns. *)
Definition continues (o : run_outcome) : bool :=
  match o with
  | Finished st _ _ _ _ _ => negb (String.eqb st "error")
  | Raised _ => false
  end.

Definition outcome_status (o : run_outcome) : string :=
  match o with
  | Finished st _ _ _ _ _ => st
  | Raised _ => "error"
  end.

Definition update_sub (t : task) (i : nat) (s : subtask) : task :=
  set_subtasks t (option_map (fun sts => <[i := s]> sts) t.(subtasks)) t.(currentIndex).

Definition sub_running (now : Z) (s : subtask) : subtask :=
  mkSubtask s.(st_type) s.(st_params) "running" s.(st_logs) (Some now)
            s.(st_endTime) s.(st_error) s.(st_result) s.(st_stage).

(** The body of the [for] loop for subtask [i]; [inr] ends the run
    (the [return] of the error branches), [inl] continues. *)
Definition chain_step (runner : nat -> string -> run_outcome) (now : Z)
           (len i : nat) (s0 : subtask) (t0 : task) (tr0 : trace)
  : (task * trace) + (task * trace) :=
  let t1 := set_subtasks t0 t0.(subtasks) i in
  let t1 := set_lifecycle t1 t1.(status)
              (Some ("Running subtask " +:+ show_nat (S i) +:+ "/" +:+ show_nat len))
              t1.(logs) t1.(startTime) t1.(endTime) t1.(error) t1.(result) in
  let s := sub_running now s0 in
  let t2 := update_sub t1 i s in
  let tr := tr_start i tr0 in
  let '(out, tr') := run_subtask runner i (resolve_type s.(st_type)) tr in
  match out with
  | Raised m =>
      let s' := mkSubtask s.(st_type) s.(st_params) "error" s.(st_logs) s.(st_startTime)
                          (Some now) (Some m) s.(st_result) s.(st_stage) in
      let t3 := update_sub t2 i s' in
      inr (set_lifecycle t3 "error" t3.(stage) t3.(logs) t3.(startTime) (Some now)
             (Some ("Subtask " +:+ show_nat (S i) +:+ " exception: " +:+ m)) t3.(result), tr')
  | Finished st lg fin err res stg =>
      let fin' := match fin with Some f => Some f | None => Some now end in
      let s' := mkSubtask s.(st_type) s.(st_params) st lg s.(st_startTime) fin' err res stg in
      let t3 := update_sub t2 i s' in
      if String.eqb st "completed" then inl (t3, tr')
      else if String.eqb st "error" then
        inr (set_lifecycle t3 "error" t3.(stage) t3.(logs) t3.(startTime) (Some now)
               (Some ("Subtask " +:+ show_nat (S i) +:+ " failed: " +:+ js_str err)) t3.(result), tr')
      else inl (t3, tr')
  end.

(** The [for (let i = 0; i < task.subtasks.length; i++)] loop; [left]
    is the number of iterations still to run. *)
Fixpoint chain_loop (runner : nat -> string -> run_outcome) (now : Z)
         (left i : nat) (t : task) (tr : trace) : (task * trace) + (task * trace) :=
  match left with
  | O => inl (t, tr)
  | S left' =>
      match t.(subtasks) with
      | Some sts =>
          match sts !! i with
          | Some s =>
              match chain_step runner now (length sts) i s t tr with
              | inl (t', tr') => chain_loop runner now left' (S i) t' tr'
              | inr done => inr done
              end
          | None => inl (t, tr)
          end
      | None => inl (t, tr)
      end
  end.

(** [runChainedTask(taskId, task)] on a task with a subtask array (on a
    task without one, [task.subtasks.length] throws in the source; that
    case is outside this model, which runs no iteration for it). *)
Definition runChainedTask (runner : nat -> string -> run_outcome) (now : Z)
           (t : task) : task * trace :=
  let sts := match t.(subtasks) with Some sts => sts | None => [] end in
  match chain_loop runner now (length sts) 0 t (mkTrace [] []) with
  | inr done => done
  | inl (t', tr') =>
      (set_lifecycle t' "completed" (Some "All subtasks completed") t'.(logs)
         t'.(startTime) (Some now) t'.(error)
         (Some ("Completed " +:+ show_nat (length sts) +:+ " subtasks")), tr')
  end.

End Chain.

(* ------------------------------------------------------------------ *)
(** ** Task rows: [saveTaskToDb] and [dbRowToTask] (src/unnamed/part_004,
       lines 12-103)

    A row holds the columns of [janus_tasks]; SQL [NULL] is [None].
    [JSON.stringify] then [JSON.parse] is the identity on the values
    stored, so the [logs] and [metadata] columns hold the values
    themselves. A metadata object is a map from keys to JSON values;
    [task.metadata] is [None] when the task has none (a task built by a
    route), the parsed object for a task read by [dbRowToTask]. *)
Module Db.
Import Task.

Inductive json :=
| JNull
| JStr (s : string)
| JNum (n : nat)
| JBool (b : bool)
| JSubtasks (l : list subtask).

Definition meta := gmap string json.

Record row := mkRow {
  r_type : option string;
  r_psm : option string;
  r_env : option string;
  r_idl_branch : option string;
  r_dry_run : option bool;
  r_api_group_id : option string;
  r_status : option string;
  r_stage : option string;
  r_result : option string;
  r_error : option string;
  r_logs : list log_line;
  r_start_time : option Z;
  r_end_time : option Z;
  r_metadata : option meta
}.

(** A task object together with its [metadata] field. *)
Record dbtask := mkDbTask {
  d_task : task;
  d_metadata : option meta
}.

(** [x || null] for a nullable string. *)
Definition or_null (o : option string) : option string :=
  match o with Some EmptyString => None | _ => o end.

Definition json_of_str (o : option string) : json :=
  match o with Some s => JStr s | None => JNull end.

(** The object literal of [saveTaskToDb] before the spread. *)
Definition fresh_meta (t : task) : meta :=
  <["api_group_id" := json_of_str (or_null t.(t_params).(api_group_id))]>
  (<["stage" := json_of_str (or_null t.(stage))]>
  (<["result" := json_of_str (or_null t.(result))]>
  (<["name" := json_of_str (or_null t.(name))]>
  (<["idl_version" := json_of_str (or_null t.(t_params).(idl_version))]>
  (<["subtasks" := match t.(subtasks) with Some l => JSubtasks l | None => JNull end]>
  (<["currentIndex" := JNum t.(currentIndex)]>
  (<["isChained" := JBool t.(isChained)]> ∅))))))).

(** [{ ...fresh, ...(task.metadata || {}) }]: keys of [task.metadata]
    win ([∪] is left-biased). *)
Definition save_meta (dt : dbtask) : meta :=
  match dt.(d_metadata) with
  | Some m => m ∪ fresh_meta dt.(d_task)
  | None => fresh_meta dt.(d_task)
  end.

(** A time in milliseconds as a [DATETIME] column (no fractional
    seconds) stores it: rounded to the nearest second. *)
Definition datetime (ms : Z) : Z := 1000 * ((ms + 500) / 1000).

(** The [VALUES] of the [INSERT]. *)
Definition row_of (dt : dbtask) : row :=
  let t := dt.(d_task) in
  mkRow (or_null (Some t.(type))) (or_null t.(t_params).(psm)) (or_null t.(t_params).(env))
        (or_null t.(t_params).(idl_branch)) t.(dry_run)
        (or_null t.(t_params).(api_group_id)) (or_null (Some t.(status)))
        (or_null t.(stage)) (or_null t.(result)) (or_null t.(error))
        t.(logs) (option_map datetime t.(startTime)) (option_map datetime t.(endTime))
        (Some (save_meta dt)).

(** [saveTaskToDb(taskId, task)] on the table [db]: [INSERT ... ON
    DUPLICATE KEY UPDATE], which leaves [type] and [start_time] of an
    existing row as they are. *)
Definition saveTaskToDb (taskId : string) (dt : dbtask) (db : gmap string row)
  : gmap string row :=
  let r := row_of dt in
  match db !! taskId with
  | None => <[taskId := r]> db
  | Some old =>
      <[taskId := mkRow old.(r_type) r.(r_psm) r.(r_env) r.(r_idl_branch) r.(r_dry_run)
                        r.(r_api_group_id) r.(r_status) r.(r_stage) r.(r_result)
                        r.(r_error) r.(r_logs) old.(r_start_time) r.(r_end_time)
                        r.(r_metadata)]> db
  end.

(** JavaScript truthiness of a JSON value. *)
Definition json_truthy (v : json) : bool :=
  match v with
  | JNull => false
  | JStr s => negb (String.eqb s "")
  | JNum n => negb (Nat.eqb n 0)
  | JBool b => b
  | JSubtasks _ => true
  end.

(** [metadata.k || null] for a key that [saveTaskToDb] writes as a
    string or [null]. *)
Definition meta_str (m : meta) (k : string) : option string :=
  match m !! k with Some (JStr s) => or_null (Some s) | _ => None end.

(** [a || b || null] *)
Definition or2 (a b : option string) : option string :=
  match or_null a with Some s => Some s | None => or_null b end.

(** A [NULL] [type] or [status] column is read back as the empty string. *)
Definition from_null (o : option string) : string :=
  match o with Some s => s | None => EmptyString end.

Definition dbRowToTask (r : row) : dbtask :=
  let m := match r.(r_metadata) with Some m => m | None => ∅ end in
  mkDbTask
    (mkTask (from_null r.(r_type)) (meta_str m "name")
            (mkParams r.(r_psm) r.(r_env) r.(r_idl_branch) (meta_str m "idl_version")
                      (or2 r.(r_api_group_id) (meta_str m "api_group_id")))
            (Some (match r.(r_dry_run) with Some true => true | _ => false end))
            (from_null r.(r_status))
            (or2 r.(r_stage) (meta_str m "stage"))
            r.(r_logs) r.(r_start_time) r.(r_end_time) r.(r_error)
            (or2 r.(r_result) (meta_str m "result"))
            (match m !! "isChained" with
             | Some v => json_truthy v
             | None => false
             end || match m !! "subtasks" with Some v => json_truthy v | None => false end)
            (match m !! "subtasks" with Some (JSubtasks l) => Some l | _ => None end)
            (match m !! "currentIndex" with Some (JNum n) => n | _ => 0%nat end))
    (Some m).

(** [getTaskFromDb(taskId)] *)
Definition getTaskFromDb (taskId : string) (db : gmap string row) : option dbtask :=
  option_map dbRowToTask (db !! taskId).

End Db.

(* ------------------------------------------------------------------ *)
(** ** Task store: [addScreenshot] (src/unnamed/part_001, createTaskUtils)
       and [POST /api/tasks/:id/restart] (src/browser/routes/tasks.js,
       lines 387-481)

    [tasks] and [screenshots] are the in-memory [Map]s; a task object
    in [tasks] carries its [metadata] field (set when it was read from
    the database). [db_tasks] and [db_shots] are the tables
    [janus_tasks] and [janus_screenshots], written by [saveTaskToDb],
    [saveScreenshotToDb] and [deleteScreenshotsFromDb]. The database is
    configured ([getPool()] returns a pool) and its queries succeed; when
    the [SELECT] of the restart route throws, the route answers 500,
    which is not modelled. *)
Module Store.
Import Task Db.

Record shot := mkShot { label : string; data : string; time : Z }.

Record world := mkWorld {
  tasks : gmap string dbtask;
  screenshots : gmap string (list shot);
  db_tasks : gmap string row;
  db_shots : list (string * nat * string)
}.

(** [addScreenshot(page, label)] for task [taskId]; [capture] is the
    result of [page.screenshot()], [None] when it throws (the error is
    logged and nothing is stored). Returns the index assigned. *)
Definition addScreenshot (taskId : string) (lbl : string) (capture : option string)
           (now : Z) (w : world) : option nat * world :=
  match capture with
  | None => (None, w)
  | Some d =>
      let taskSS := match w.(screenshots) !! taskId with Some l => l | None => [] end in
      let index := length taskSS in
      let taskSS' := app taskSS [mkShot lbl d now] in
      (Some index,
       mkWorld w.(tasks) (<[taskId := taskSS']> w.(screenshots)) w.(db_tasks)
               (app w.(db_shots) [(taskId, index, lbl)]))
  end.

(** An element of [req.body.subtasks]. *)
Record subtask_spec := mkSpec { sp_type : string; sp_params : params }.

(** [req.body]; [None] for an absent field ([undefined]), and for a
    [subtasks] value that is not an array. *)
Record updates := mkUpdates {
  u_psm : option string;
  u_env : option string;
  u_idl_branch : option string;
  u_idl_version : option string;
  u_dry_run : option bool;
  u_api_group_id : option string;
  u_name : option string;
  u_subtasks : option (list subtask_spec)
}.

Definition no_updates : updates := mkUpdates None None None None None None None None.

Definition pick {A} (u : option A) (old : option A) : option A :=
  match u with Some v => Some v | None => old end.

(** The [allowedFields] loop. *)
Definition apply_fields (u : updates) (t : task) : task :=
  let p := t.(t_params) in
  let p' := mkParams (pick u.(u_psm) p.(psm)) (pick u.(u_env) p.(env))
                     (pick u.(u_idl_branch) p.(idl_branch))
                     (pick u.(u_idl_version) p.(idl_version))
                     (pick u.(u_api_group_id) p.(api_group_id)) in
  mkTask t.(type) (pick u.(u_name) t.(name)) p' (pick u.(u_dry_run) t.(dry_run))
         t.(status) t.(stage) t.(logs) t.(startTime) t.(endTime) t.(error) t.(result)
         t.(isChained) t.(subtasks) t.(currentIndex).

Definition spec_to_subtask (sp : subtask_spec) : subtask :=
  mkSubtask (resolve_type sp.(sp_type)) sp.(sp_params) "pending" [] None None None None None.

(** The per-subtask reset of the restart route. *)
Definition reset_subtask (s : subtask) : subtask :=
  mkSubtask s.(st_type) s.(st_params) "pending" [] None None None None s.(st_stage).

Inductive response :=
| NotFound                 (* 404 Task not found *)
| AlreadyRunning           (* 400 Task is already running *)
| Restarted.               (* { taskId, status: 'restarted' } *)

(** Which runner the route starts after answering. *)
Inductive next_run := RunChained | RunWorkorder | RunJanus.

(** [tasks.get(taskId)], else the stored row through [dbRowToTask]. *)
Definition lookup_task (w : world) (taskId : string) : option dbtask :=
  match w.(tasks) !! taskId with
  | Some dt => Some dt
  | None => getTaskFromDb taskId w.(db_tasks)
  end.

Definition restart (taskId : string) (u : updates) (now : Z) (w : world)
  : response * option next_run * world :=
  match lookup_task w taskId with
  | None => (NotFound, None, w)
  | Some dt0 =>
      let t0 := dt0.(d_task) in
      if String.eqb t0.(status) "running" then (AlreadyRunning, None, w)
      else
        let t1 := apply_fields u t0 in
        let t2 := match u.(u_subtasks) with
                  | Some sps => set_subtasks t1 (Some (map spec_to_subtask sps)) t1.(currentIndex)
                  | None => t1
                  end in
        let t3 := set_lifecycle t2 "running" t2.(stage) [(now, "Task restarted")]
                                (Some now) None None t2.(result) in
        let t4 := match t3.(subtasks) with
                  | Some sts => set_subtasks t3 (Some (map reset_subtask sts)) 0
                  | None => t3
                  end in
        let dt4 := mkDbTask t4 dt0.(d_metadata) in
        let w' := mkWorld (<[taskId := dt4]> w.(tasks))
                          (<[taskId := []]> w.(screenshots))
                          (saveTaskToDb taskId dt4 w.(db_tasks))
                          (filter (fun r => negb (String.eqb r.1.1 taskId)) w.(db_shots)) in
        let nxt := if t4.(isChained) || truthy t4.(subtasks) then RunChained
                   else if String.eqb t4.(type) "janus_workorder_execute" then RunWorkorder
                   else RunJanus in
        (Restarted, Some nxt, w')
  end.

End Store.

(* ------------------------------------------------------------------ *)
(** ** The rest of the pool object: [close], [recordUrl], [recordTask],
       [getStatus] (src/browser/engine/proxy.js, lines 241-333)

    [Pool] carries [urlHistory] and [taskHistory] as bare lists; here
    their entries have the fields the methods write. [new URL(url)] is
    [hostname_of url]: the parsed [hostname], [None] when the
    constructor throws. [new Date().toISOString()] is the time [now]. *)
Module PoolOps.
Import Pool.
Local Open Scope Z_scope.

(** [close()]: the timer is cleared; the rest only when there is a
    browser. The fallback [SIGKILL] of the process is not recorded. *)
Definition close (p0 : pool) : pool :=
  let p := set_idleTimer None p0 in
  if truthy p.(browser) then
    mkPool None None p.(lastUsed) None false p.(idleTimeout) p.(maxAge)
           p.(idleTimer) [] [] p.(next_proc)
  else p.

Record url_entry := mkUrlEntry {
  ue_url : string;
  ue_domain : string;
  ue_taskId : option string;
  ue_time : Z
}.

Record task_entry := mkTaskEntry {
  te_taskId : string;
  te_taskType : string;
  te_time : Z
}.

(** [arr.slice(-n)] for a positive [n]. *)
Definition slice_last {A} (n : nat) (l : list A) : list A :=
  skipn (length l - n) l.

(** [arr.push(e); if (arr.length > cap) arr = arr.slice(-cap)] *)
Definition push_capped {A} (cap : nat) (h : list A) (e : A) : list A :=
  let h' := app h [e] in
  if Nat.ltb cap (length h') then slice_last cap h' else h'.

Definition recordUrl (hostname_of : string -> option string) (url : string)
           (taskId : option string) (now : Z) (h : list url_entry) : list url_entry :=
  if String.eqb url "" || String.eqb url "about:blank" then h
  else match hostname_of url with
       | None => h
       | Some host => push_capped 50 h (mkUrlEntry (substring 0 200 url) host taskId now)
       end.

Definition recordTask (taskId taskType : string) (now : Z) (h : list task_entry)
  : list task_entry :=
  push_capped 20 h (mkTaskEntry taskId taskType now).

(** [[...new Set(xs)]]: first occurrences, in order. *)
Fixpoint set_add_all (seen xs : list string) : list string :=
  match xs with
  | [] => seen
  | x :: xs' =>
      set_add_all (if existsb (String.eqb x) seen then seen else app seen [x]) xs'
  end.

(** The fields of [getStatus()] computed from the histories. *)
Record status_view := mkStatusView {
  sv_hasInstance : bool;
  sv_inUse : bool;
  sv_pid : option nat;
  sv_urlCount : nat;
  sv_domains : list string;
  sv_recentUrls : list url_entry;
  sv_taskCount : nat;
  sv_recentTasks : list task_entry
}.

Definition getStatus (p : pool) (urls : list url_entry) (tsks : list task_entry)
  : status_view :=
  mkStatusView (truthy p.(browser)) p.(inUse) p.(pid) (length urls)
               (set_add_all [] (map ue_domain urls))
               (rev (slice_last 10 urls)) (length tsks) (rev (slice_last 5 tsks)).

End PoolOps.

(* ------------------------------------------------------------------ *)
(** ** Browser arguments: [getBrowserArgs] (src/unnamed/part_001,
       lines 787-806) and the merge in [getBrowser]
       (src/browser/engine/proxy.js, line 209)

    [COMMON_BROWSER_ARGS] and [LOCAL_PROXY_PORT] come from a config
    module that is not in the sources; they are arguments here. *)
Module Args.
Import Proxy.

Definition proxy_arg (LOCAL_PROXY_PORT : nat) : string :=
  "--proxy-server=http://127.0.0.1:" +:+ Task.show_nat LOCAL_PROXY_PORT.

Definition getBrowserArgs (proxyConfig : proxy_config) (LOCAL_PROXY_PORT : nat)
  : list string :=
  app ["--window-size=1600,1000"; "--force-device-scale-factor=1";
       "--disable-accelerated-2d-canvas"; "--disable-gpu-compositing";
       "--enable-features=NetworkService,NetworkServiceInProcess"]
      (if proxyConfig.(proxyEnabled) then [proxy_arg LOCAL_PROXY_PORT] else []).

(** [[...COMMON_BROWSER_ARGS,
      ...browserArgs.filter(arg => !COMMON_BROWSER_ARGS.includes(arg))]] *)
Definition allArgs (COMMON_BROWSER_ARGS browserArgs : list string) : list string :=
  app COMMON_BROWSER_ARGS
      (filter (fun arg => negb (existsb (String.eqb arg) COMMON_BROWSER_ARGS)) browserArgs).

End Args.

(* ------------------------------------------------------------------ *)
(** ** updateProxyConfig (src/browser/engine/proxy.js, lines 24-28)

    A field of [updates] is [None] when absent; [up_proxyEnabled] is
    [None] also for a value whose [typeof] is not ['boolean']. *)
Module ProxyUpdate.
Import Proxy.

Record proxy_updates := mkProxyUpdates {
  up_macProxyDomains : option (list string);
  up_macProxyPort : option Z;
  up_proxyEnabled : option bool
}.

Definition updateProxyConfig (u : proxy_updates) (cfg : proxy_config) : proxy_config :=
  mkProxyConfig
    (match u.(up_macProxyDomains) with Some ds => Some ds | None => cfg.(macProxyDomains) end)
    (match u.(up_macProxyPort) with
     | Some n => if Z.eqb n 0 then cfg.(macProxyPort) else n
     | None => cfg.(macProxyPort)
     end)
    (match u.(up_proxyEnabled) with Some b => b | None => cfg.(proxyEnabled) end).

End ProxyUpdate.

(* ------------------------------------------------------------------ *)
(** ** [POST /api/tasks/:id/stop] (src/browser/routes/tasks.js,
       lines 326-383)

    [runningBrowsers] maps a task id to its browser handle and process
    id; [closes b] says whether [browser.close()] resolves, and
    [killed] lists the process ids [forceKillBrowser] was called on.
    The subtask objects are those of [task.subtasks], so the writes of
    the loop land in the parent task. *)
Module Stop.
Import Task Db Store.

Record browser_info := mkBrowserInfo { bi_browser : nat; bi_pid : option nat }.

Record sworld := mkSWorld {
  world_of : world;
  runningBrowsers : gmap string browser_info;
  killed : list nat
}.

Inductive stop_response :=
| StopNotFound     (* 404 Task not found *)
| NotRunning       (* 400 Task is not running *)
| Stopped.         (* { success: true, taskId, status: 'stopped' } *)

(** [if (info) { try close, else force-kill; runningBrowsers.delete(key) }] *)
Definition close_entry (closes : nat -> bool) (key : string)
           (rb : gmap string browser_info) (kl : list nat)
  : gmap string browser_info * list nat :=
  match rb !! key with
  | Some bi =>
      (delete key rb,
       if closes bi.(bi_browser) then kl
       else match bi.(bi_pid) with Some (S _ as p) => app kl [p] | _ => kl end)
  | None => (rb, kl)
  end.

Definition subtask_key (taskId : string) (i : nat) : string :=
  taskId +:+ "_sub" +:+ show_nat i.

Definition stop_sub (now : Z) (s : subtask) : subtask :=
  if String.eqb s.(st_status) "running" || String.eqb s.(st_status) "pending" then
    mkSubtask s.(st_type) s.(st_params) "stopped" s.(st_logs) s.(st_startTime)
              (Some now) (Some "Parent task stopped by user") s.(st_result) s.(st_stage)
  else s.

(** The [for] loop over the subtasks; [left] iterations remain. *)
Fixpoint stop_loop (closes : nat -> bool) (now : Z) (taskId : string) (left i : nat)
         (sts : list subtask) (tm : gmap string dbtask)
         (rb : gmap string browser_info) (kl : list nat)
  : list subtask * gmap string dbtask * gmap string browser_info * list nat :=
  match left with
  | O => (sts, tm, rb, kl)
  | S left' =>
      let key := subtask_key taskId i in
      let '(rb', kl') := close_entry closes key rb kl in
      let sts' := match sts !! i with Some s => <[i := stop_sub now s]> sts | None => sts end in
      let tm' := match tm !! key with Some _ => delete key tm | None => tm end in
      stop_loop closes now taskId left' (S i) sts' tm' rb' kl'
  end.

Definition stop (taskId : string) (now : Z) (closes : nat -> bool) (sw : sworld)
  : stop_response * sworld :=
  let w := sw.(world_of) in
  match w.(tasks) !! taskId with
  | None => (StopNotFound, sw)
  | Some dt =>
      let t := dt.(d_task) in
      if negb (String.eqb t.(status) "running") then (NotRunning, sw)
      else
        let '(rb1, kl1) := close_entry closes taskId sw.(runningBrowsers) sw.(killed) in
        let sts := match t.(subtasks) with Some l => l | None => [] end in
        let '(sts', tm, rb2, kl2) :=
          if t.(isChained) || truthy t.(subtasks)
          then stop_loop closes now taskId (length sts) 0 sts w.(tasks) rb1 kl1
          else (sts, w.(tasks), rb1, kl1) in
        let t1 := set_subtasks t (option_map (fun _ => sts') t.(subtasks)) t.(currentIndex) in
        let t2 := set_lifecycle t1 "stopped" t1.(stage)
                                (app t1.(logs) [(now, "Task stopped by user")])
                                t1.(startTime) (Some now) (Some "Task stopped by user")
                                t1.(result) in
        let dt2 := mkDbTask t2 dt.(d_metadata) in
        (Stopped,
         mkSWorld (mkWorld (<[taskId := dt2]> tm) w.(screenshots)
                           (saveTaskToDb taskId dt2 w.(db_tasks)) w.(db_shots))
                  rb2 kl2)
  end.

End Stop.

(* ------------------------------------------------------------------ *)
(** ** cleanupOrphanedBrowsers (src/browser/engine/utils/browser-helpers.js,
       lines 43-80) and the cleanup interval (src/browser/server.js,
       lines 88-103)

    [lines] is [stdout.trim().split('\n')] of the [ps] pipeline;
    [kill_ok pid] says whether [process.kill] succeeds. The result is
    the number killed and the process ids a kill was tried on. *)
Module Cleanup.
Import Task Stop.

Definition pid_key (o : option nat) : list string :=
  match o with Some (S _ as p) => [show_nat p] | _ => [] end.

(** [knownPids]: the tracked browsers' process ids, then the pool's. *)
Definition knownPids (rb : gmap string browser_info) (poolPid : option nat) : list string :=
  app (concat (map (fun kv => pid_key kv.2.(bi_pid)) (map_to_list rb))) (pid_key poolPid).

Fixpoint kill_loop (kill_ok : string -> bool) (known : list string) (pids : list string)
  : nat * list string :=
  match pids with
  | [] => (0%nat, [])
  | pid :: rest =>
      let '(n, tried) := kill_loop kill_ok known rest in
      if existsb (String.eqb pid) known then (n, tried)
      else ((if kill_ok pid then S n else n), pid :: tried)
  end.

Definition cleanupOrphanedBrowsers (kill_ok : string -> bool) (lines : list string)
           (rb : gmap string browser_info) (poolPid : option nat) : nat * list string :=
  let pids := filter (fun p => negb (String.eqb p "")) lines in
  kill_loop kill_ok (knownPids rb poolPid) pids.

(** One tick of the interval: [None] when it skips. *)
Definition cleanup_tick (kill_ok : string -> bool) (lines : list string)
           (tasks : gmap string task) (rb : gmap string browser_info)
           (bp : Pool.pool) : option (nat * list string) :=
  if existsb (fun kv => String.eqb kv.2.(status) "running") (map_to_list tasks) then None
  else if bp.(Pool.inUse) then None
  else Some (cleanupOrphanedBrowsers kill_ok lines rb bp.(Pool.pid)).

End Cleanup.

(* ================================================================== *)
(** * Properties *)

(* ------------------------------------------------------------------ *)
(** ** Condition poller *)

Lemma maxAttempts_pos (timeout interval : Z) :
  (0 < timeout)%Z -> (0 < interval)%Z -> exists n, Poll.maxAttempts timeout interval = S n.
Proof.
  intros Ht Hi. unfold Poll.maxAttempts.
  assert (H : (0 < (timeout + interval - 1) / interval)%Z)
    by (apply Z.div_str_pos; lia).
  exists (Z.to_nat ((timeout + interval - 1) / interval) - 1).
  lia.
Qed.

(** C5: when every call of [checkFn] throws an error whose message is
    classified fatal, [pollForCondition] returns
    [{ready:false, fatalError:true}] after exactly one call of
    [checkFn] (for any positive [timeout] and [interval], so that the
    loop runs at least once). *)
Theorem C5_poll_fatal_short_circuit (checkFn : nat -> Poll.check_outcome)
        (timeout interval : Z)
        (Hfatal : forall i, exists m, checkFn i = Poll.Throws m /\ Poll.is_fatal m = true)
        (Ht : (0 < timeout)%Z) (Hi : (0 < interval)%Z) :
  Poll.ready (fst (Poll.pollForCondition checkFn timeout interval)) = false /\
  Poll.fatalError (fst (Poll.pollForCondition checkFn timeout interval)) = true /\
  snd (Poll.pollForCondition checkFn timeout interval) = 1.
Proof.
  destruct (maxAttempts_pos timeout interval Ht Hi) as [n Hn].
  destruct (Hfatal 0) as [m [Hm Hf]].
  unfold Poll.pollForCondition. rewrite Hn. cbn [Poll.poll_loop].
  rewrite Hm, Hf. repeat split.
Qed.

Lemma C5_witness :
  (forall i, exists m, (fun _ : nat => Poll.Throws "Target closed") i = Poll.Throws m /\
                       Poll.is_fatal m = true) /\
  (0 < 30000)%Z /\ (0 < 1000)%Z /\
  Poll.ready (fst (Poll.pollForCondition (fun _ => Poll.Throws "Target closed") 30000 1000)) = false /\
  Poll.fatalError (fst (Poll.pollForCondition (fun _ => Poll.Throws "Target closed") 30000 1000)) = true /\
  snd (Poll.pollForCondition (fun _ => Poll.Throws "Target closed") 30000 1000) = 1.
Proof.
  assert (Hf : forall i, exists m, (fun _ : nat => Poll.Throws "Target closed") i = Poll.Throws m /\
                                   Poll.is_fatal m = true)
    by (intros i; exists "Target closed"; split; reflexivity).
  split; [exact Hf|]. split; [lia|]. split; [lia|].
  apply (C5_poll_fatal_short_circuit (fun _ => Poll.Throws "Target closed") 30000 1000 Hf);
    reflexivity.
Defined.

(* ------------------------------------------------------------------ *)
(** ** Selective proxy *)



(* ------------------------------------------------------------------ *)
(** ** Browser pool *)

Section PoolFacts.
Import Pool.

(** C1, as the code does it: [getBrowser] never reads [inUse]. What it
    returns does not depend on whether the entry is held, and it always
    leaves [inUse = true]; a second [getBrowser] while the entry is in
    use is granted the same cached handle. Exclusivity is up to the
    callers. *)
Theorem C1_getBrowser_ignores_inUse (now : Z) (alive : bool) (p : pool) :
  fst (getBrowser now alive (with_inUse true p)) =
    fst (getBrowser now alive (with_inUse false p)) /\
  inUse (snd (getBrowser now alive p)) = true.
Proof.
  unfold getBrowser, with_inUse, set_idleTimer, launch, drop_browser, createdAt_or_0.
  destruct p as [[b|] pd lu ca iu it ma tm uh th np]; cbn;
    [destruct (Z.ltb _ _), alive|]; split; reflexivity.
Qed.

(** C1 fails as stated: a first [getBrowser] launches browser 100 and
    sets [inUse]; a second [getBrowser], made while [inUse] is still
    true and before any [release], is granted the same browser 100. *)
Lemma C1_two_holders_counterexample :
  let p1 := snd (getBrowser 0 true (createBrowserPool 100)) in
  inUse p1 = true /\
  a_browser (fst (getBrowser 1 true p1)) =
    a_browser (fst (getBrowser 0 true (createBrowserPool 100))) /\
  cached (fst (getBrowser 1 true p1)) = true /\
  inUse (snd (getBrowser 1 true p1)) = true.
Proof. vm_compute. repeat split. Qed.

Lemma fresh_inv_create (first : nat) : fresh_inv (createBrowserPool first).
Proof. split; [reflexivity | intros b Hb; discriminate]. Qed.

Lemma fresh_inv_set_idleTimer (t : option Z) (p : pool) :
  fresh_inv p -> fresh_inv (set_idleTimer t p).
Proof. intros [H1 H2]; split; cbn; auto. Qed.

Lemma fresh_inv_drop (p : pool) : fresh_inv (drop_browser p).
Proof. split; [reflexivity | intros b Hb; discriminate]. Qed.

Lemma fresh_inv_launch (now : Z) (p : pool) : fresh_inv (snd (launch now p)).
Proof. split; cbn; [reflexivity | intros b Hb; injection Hb; lia]. Qed.

Lemma fresh_inv_getBrowser (now : Z) (alive : bool) (p : pool) :
  fresh_inv p -> fresh_inv (snd (getBrowser now alive p)).
Proof.
  intros Hp. pose proof (fresh_inv_set_idleTimer None p Hp) as Hq.
  unfold getBrowser.
  destruct (browser (set_idleTimer None p)) eqn:Hb; [|apply fresh_inv_launch].
  destruct (Z.ltb _ _); [apply fresh_inv_launch|].
  destruct alive; [|apply fresh_inv_launch].
  destruct Hq as [H1 H2]. unfold fresh_inv. cbn in H1, H2, Hb |- *.
  split; [congruence | intros x Hx; injection Hx as <-; apply H2; exact Hb].
Qed.

Lemma fresh_inv_release (now : Z) (p : pool) :
  fresh_inv p -> fresh_inv (release now p).
Proof. intros [H1 H2]; split; cbn; auto. Qed.

Lemma fresh_inv_fire_due (now : Z) (p : pool) :
  fresh_inv p -> fresh_inv (fire_due now p).
Proof.
  intros Hp. unfold fire_due.
  destruct (idleTimer p); [|exact Hp].
  destruct (Z.leb _ _); [|exact Hp].
  unfold idle_callback.
  destruct (_ && _); [apply fresh_inv_drop | apply fresh_inv_set_idleTimer, Hp].
Qed.

Lemma fresh_inv_disconnected (b : nat) (p : pool) :
  fresh_inv p -> fresh_inv (on_disconnected b p).
Proof.
  intros Hp. unfold on_disconnected.
  destruct (decide _); [split; [reflexivity | intros x Hx; discriminate] | exact Hp].
Qed.

Lemma fresh_inv_step (e : event) (p : pool) :
  fresh_inv p -> fresh_inv (snd (step e p)).
Proof.
  intros Hp.
  unfold step. destruct e as [t alive|t|t b|t]; cbn [event_time];
    pose proof (fresh_inv_fire_due t p Hp) as Hq.
  - pose proof (fresh_inv_getBrowser t alive _ Hq) as Hg.
    destruct (getBrowser t alive (fire_due t p)) as [a p']. exact Hg.
  - apply fresh_inv_release, Hq.
  - apply fresh_inv_disconnected, Hq.
  - exact Hq.
Qed.

Lemma fresh_inv_run (evs : list event) : forall p,
  fresh_inv p -> fresh_inv (snd (run evs p)).
Proof.
  induction evs as [|e evs IH]; intros p Hp; [exact Hp|].
  cbn. destruct (step e p) as [o p'] eqn:E.
  destruct (run evs p') as [os p''] eqn:E2.
  pose proof (fresh_inv_step e p Hp) as Hs. rewrite E in Hs.
  specialize (IH p' Hs). rewrite E2 in IH. exact IH.
Qed.

(** C6: on any pool reached by a sequence of calls, a [getBrowser]
    made when the cached browser is older than [maxAge] launches a new
    browser whatever the liveness probe would say: the call returns
    [cached = false], a handle other than the cached one, and a process
    id other than the cached entry's, and the pool now holds the new
    browser. *)
Theorem C6_max_age_relaunch (first : nat) (evs : list event) (now : Z)
        (alive : bool) (b : nat)
        (Hb : browser (snd (run evs (createBrowserPool first))) = Some b)
        (Hage : (maxAge (snd (run evs (createBrowserPool first))) <
                 now - createdAt_or_0 (snd (run evs (createBrowserPool first))))%Z) :
  let p := snd (run evs (createBrowserPool first)) in
  cached (fst (getBrowser now alive p)) = false /\
  a_browser (fst (getBrowser now alive p)) <> b /\
  a_pid (fst (getBrowser now alive p)) <> pid p /\
  browser (snd (getBrowser now alive p)) = Some (a_browser (fst (getBrowser now alive p))).
Proof.
  cbv zeta.
  pose proof (fresh_inv_run evs _ (fresh_inv_create first)) as [Hpid Hlt].
  revert Hb Hage Hpid Hlt.
  generalize (snd (run evs (createBrowserPool first))). intros p Hb Hage Hpid Hlt.
  specialize (Hlt b Hb).
  unfold getBrowser. cbn [set_idleTimer browser].
  rewrite Hb. cbn [maxAge createdAt set_idleTimer].
  unfold createdAt_or_0 in Hage |- *. cbn [createdAt set_idleTimer].
  replace (Z.ltb (maxAge p) _) with true by (symmetry; apply Z.ltb_lt; exact Hage).
  cbn. rewrite Hpid, Hb.
  repeat split; try reflexivity; intro E; try injection E; lia.
Qed.

Lemma C6_witness :
  let p := snd (run [EvGetBrowser 0 true] (createBrowserPool 100)) in
  browser p = Some 100%nat /\
  (maxAge p < 600001 - createdAt_or_0 p)%Z /\
  cached (fst (getBrowser 600001 true p)) = false /\
  a_browser (fst (getBrowser 600001 true p)) <> 100%nat /\
  a_pid (fst (getBrowser 600001 true p)) <> pid p /\
  browser (snd (getBrowser 600001 true p)) = Some (a_browser (fst (getBrowser 600001 true p))).
Proof.
  cbv zeta.
  assert (Hb : browser (snd (run [EvGetBrowser 0 true] (createBrowserPool 100))) = Some 100%nat)
    by reflexivity.
  assert (Ha : (maxAge (snd (run [EvGetBrowser 0 true] (createBrowserPool 100))) <
                600001 - createdAt_or_0 (snd (run [EvGetBrowser 0 true] (createBrowserPool 100))))%Z)
    by (vm_compute; reflexivity).
  split; [exact Hb|]. split; [exact Ha|].
  exact (C6_max_age_relaunch 100 [EvGetBrowser 0 true] 600001 true 100 Hb Ha).
Defined.

(** C7, as the code does it. After [release] at [tr]: an event at or
    after [tr + idleTimeout] finds the idle timer fired and the browser
    closed ([hasInstance = false]). A [getBrowser] before that deadline,
    whatever the liveness probe answers, cancels the timer, so no
    eviction happens at the old deadline. It returns the cached handle
    and process id with [cached = true] exactly when the cached browser
    is at most [maxAge] old and answers the probe; otherwise it launches
    a new browser ([cached = false], the next handle, which on a pool
    satisfying [fresh_inv], as every reachable pool does, differs from
    the cached one). A second [release] replaces the armed timer instead
    of adding one. *)
Theorem C7_idle_eviction (p : pool) (tr t_late t_early : Z) (alive : bool) (b : nat)
        (Hlate : (tr + idleTimeout p <= t_late)%Z)
        (Hearly : (t_early < tr + idleTimeout p)%Z)
        (Hb : browser p = Some b) :
  hasInstance (snd (step (EvWait t_late) (release tr p))) = false /\
  idleTimer (snd (step (EvGetBrowser t_early alive) (release tr p))) = None /\
  hasInstance (snd (step (EvWait t_late)
                 (snd (step (EvGetBrowser t_early alive) (release tr p))))) = true /\
  (fst (step (EvGetBrowser t_early alive) (release tr p)) = Some (mkAcquired b (pid p) true) <->
     (t_early - createdAt_or_0 p <= maxAge p)%Z /\ alive = true) /\
  (~ ((t_early - createdAt_or_0 p <= maxAge p)%Z /\ alive = true) ->
     fst (step (EvGetBrowser t_early alive) (release tr p)) =
       Some (mkAcquired (next_proc p) (Some (next_proc p)) false) /\
     (fresh_inv p -> next_proc p <> b)) /\
  (forall t1 t2, idleTimer (release t2 (release t1 p)) = Some (t2 + idleTimeout p)%Z).
Proof.
  assert (Hg : step (EvGetBrowser t_early alive) (release tr p) =
               (Some (fst (getBrowser t_early alive (release tr p))),
                snd (getBrowser t_early alive (release tr p)))).
  { unfold step, fire_due; cbn [event_time idleTimer release].
    replace (Z.leb (tr + idleTimeout p) t_early) with false by (symmetry; apply Z.leb_gt; lia).
    destruct (getBrowser t_early alive (release tr p)); reflexivity. }
  rewrite Hg. cbn [fst snd].
  unfold getBrowser, createdAt_or_0. cbn [set_idleTimer browser release createdAt maxAge pid].
  rewrite Hb. unfold createdAt_or_0.
  split; [|split; [|split; [|split; [|split]]]].
  - unfold step, fire_due, release; cbn.
    replace (Z.leb (tr + idleTimeout p) t_late) with true by (symmetry; apply Z.leb_le; lia).
    unfold idle_callback, hasInstance; cbn. rewrite Hb. reflexivity.
  - destruct (Z.ltb _ _), alive; reflexivity.
  - destruct (Z.ltb _ _), alive; reflexivity.
  - destruct (Z.ltb (maxAge p) _) eqn:Hage, alive; cbn;
      [apply Z.ltb_lt in Hage | apply Z.ltb_lt in Hage
      | apply Z.ltb_ge in Hage | apply Z.ltb_ge in Hage];
      split; intro H; try discriminate; try (destruct H; try lia; discriminate);
      auto.
  - intros Hn. destruct (Z.ltb (maxAge p) _) eqn:Hage, alive; cbn.
    + split; [reflexivity | intros [_ Hl]; specialize (Hl b Hb); lia].
    + split; [reflexivity | intros [_ Hl]; specialize (Hl b Hb); lia].
    + apply Z.ltb_ge in Hage. exfalso; apply Hn; auto.
    + split; [reflexivity | intros [_ Hl]; specialize (Hl b Hb); lia].
  - intros t1 t2. reflexivity.
Qed.

Lemma C7_witness :
  let p := snd (run [EvGetBrowser 0 true] (createBrowserPool 100)) in
  (60000 + idleTimeout p <= 360000)%Z /\ (359999 < 60000 + idleTimeout p)%Z /\
  browser p = Some 100%nat /\
  hasInstance (snd (step (EvWait 360000) (release 60000 p))) = false /\
  idleTimer (snd (step (EvGetBrowser 359999 true) (release 60000 p))) = None /\
  hasInstance (snd (step (EvWait 360000)
                 (snd (step (EvGetBrowser 359999 true) (release 60000 p))))) = true /\
  (fst (step (EvGetBrowser 359999 true) (release 60000 p)) = Some (mkAcquired 100 (pid p) true) <->
     (359999 - createdAt_or_0 p <= maxAge p)%Z /\ true = true) /\
  (~ ((359999 - createdAt_or_0 p <= maxAge p)%Z /\ true = true) ->
     fst (step (EvGetBrowser 359999 true) (release 60000 p)) =
       Some (mkAcquired (next_proc p) (Some (next_proc p)) false) /\
     (fresh_inv p -> next_proc p <> 100%nat)) /\
  (forall t1 t2, idleTimer (release t2 (release t1 p)) = Some (t2 + idleTimeout p)%Z).
Proof.
  cbv zeta.
  set (p := snd (run [EvGetBrowser 0 true] (createBrowserPool 100))).
  assert (H1 : (60000 + idleTimeout p <= 360000)%Z) by (vm_compute; discriminate).
  assert (H2 : (359999 < 60000 + idleTimeout p)%Z) by (vm_compute; reflexivity).
  assert (H3 : browser p = Some 100%nat) by reflexivity.
  split; [exact H1|]. split; [exact H2|]. split; [exact H3|].
  exact (C7_idle_eviction p 60000 360000 359999 true 100 H1 H2 H3).
Defined.

(** C7 fails as stated: with the default timeouts, a browser launched
    at 0 and released at 9 minutes is asked for again at 11 minutes,
    before the idle timer's deadline (14 minutes); [getBrowser] finds it
    older than [maxAge] and returns a new browser (handle and process id
    101, [cached = false]) instead of the cached one (100). *)
Lemma C7_reacquire_past_max_age_counterexample :
  (660000 < 540000 + idleTimeout (createBrowserPool 100))%Z /\
  fst (run [EvGetBrowser 0 true; EvRelease 540000; EvGetBrowser 660000 true]
           (createBrowserPool 100)) =
    [Some (mkAcquired 100 (Some 100) false); None;
     Some (mkAcquired 101 (Some 101) false)].
Proof. vm_compute. split; reflexivity. Qed.

End PoolFacts.

(* ------------------------------------------------------------------ *)
(** ** Retry policy of runJanusTask *)

Section JanusFacts.
Import Janus.

(** The fuel given to [runJanusTask] is never the reason it stops:
    any larger fuel computes the same task. *)
Lemma run_janus_fuel_enough (logic : nat -> option string) :
  forall fuel r t, MAX_RETRIES - r + 1 <= fuel ->
    runJanusTask_fuel fuel logic r t = runJanusTask_fuel (MAX_RETRIES - r + 1) logic r t.
Proof.
  induction fuel as [|fuel IH]; intros r t Hf; [lia|].
  replace (MAX_RETRIES - r + 1) with (S (MAX_RETRIES - r)) by lia.
  cbn [runJanusTask_fuel].
  destruct (logic r) as [m|]; [|reflexivity].
  destruct (is_cookie_error m); [reflexivity|].
  destruct (is_context_destroyed m && Nat.ltb r MAX_RETRIES) eqn:E; [|reflexivity].
  apply andb_prop in E as [_ E]. apply Nat.ltb_lt in E.
  rewrite (IH (S r)) by lia.
  destruct (MAX_RETRIES - r) as [|k] eqn:Hk; [lia|].
  replace (MAX_RETRIES - S r + 1) with (S k) by lia.
  reflexivity.
Qed.

(** C3, as the code does it. When every call's automation logic throws
    an error whose message contains "Execution context was destroyed"
    and neither "refresh cookies" nor "Not logged in", a fresh run
    closes the browser and retries three times and ends in status
    ['error'] after exactly [MAX_RETRIES + 1 = 4] calls; the last call's
    error falls through to the generic handler, so [task.error] is the
    raised message itself (the last one), not a retries-exhausted
    message. *)
Theorem C3_retry_ceiling (logic : nat -> option string) (branch : option string)
        (Hctx : forall r, exists m, logic r = Some m /\
                  is_context_destroyed m = true /\ is_cookie_error m = false) :
  status (runJanusTask logic 0 (fresh_task branch)) = "error" /\
  error (runJanusTask logic 0 (fresh_task branch)) = logic MAX_RETRIES /\
  attempts (runJanusTask logic 0 (fresh_task branch)) = MAX_RETRIES + 1 /\
  retry_closes (runJanusTask logic 0 (fresh_task branch)) = MAX_RETRIES.
Proof.
  destruct (Hctx 0) as [m0 [E0 [C0 K0]]].
  destruct (Hctx 1) as [m1 [E1 [C1 K1]]].
  destruct (Hctx 2) as [m2 [E2 [C2 K2]]].
  destruct (Hctx 3) as [m3 [E3 [C3 K3]]].
  unfold runJanusTask, MAX_RETRIES. cbn [Nat.sub Nat.add runJanusTask_fuel].
  rewrite E0, K0, C0. cbn [andb Nat.ltb Nat.leb].
  rewrite E1, K1, C1. cbn [andb Nat.ltb Nat.leb].
  rewrite E2, K2, C2. cbn [andb Nat.ltb Nat.leb].
  rewrite E3, K3, C3. cbn [andb Nat.ltb Nat.leb].
  cbn. repeat split.
Qed.

Lemma C3_witness :
  (forall r, exists m, (fun _ : nat => Some "Execution context was destroyed") r = Some m /\
     is_context_destroyed m = true /\ is_cookie_error m = false) /\
  status (runJanusTask (fun _ => Some "Execution context was destroyed") 0 (fresh_task None)) = "error" /\
  error (runJanusTask (fun _ => Some "Execution context was destroyed") 0 (fresh_task None)) =
    Some "Execution context was destroyed" /\
  attempts (runJanusTask (fun _ => Some "Execution context was destroyed") 0 (fresh_task None)) = 4 /\
  retry_closes (runJanusTask (fun _ => Some "Execution context was destroyed") 0 (fresh_task None)) = 3.
Proof.
  assert (H : forall r, exists m, (fun _ : nat => Some "Execution context was destroyed") r = Some m /\
     is_context_destroyed m = true /\ is_cookie_error m = false)
    by (intros r; exists "Execution context was destroyed"; repeat split).
  split; [exact H|].
  exact (C3_retry_ceiling (fun _ => Some "Execution context was destroyed") None H).
Defined.

(** C3 fails as stated, on two counts. A transient-navigation message
    that also contains "Not logged in" is taken as a login error: the
    task ends after one call with no retry. And when the retries run
    out, [task.error] is the raised message, with no mention of
    retries. *)
Lemma C3_retry_ceiling_counterexample :
  is_context_destroyed "Not logged in: Execution context was destroyed" = true /\
  attempts (runJanusTask (fun _ => Some "Not logged in: Execution context was destroyed")
                         0 (fresh_task None)) = 1 /\
  error (runJanusTask (fun _ => Some "Execution context was destroyed") 0 (fresh_task None)) =
    Some "Execution context was destroyed" /\
  includes "Execution context was destroyed" "retr" = false.
Proof. vm_compute. repeat split. Qed.

End JanusFacts.

(* ------------------------------------------------------------------ *)
(** ** Chain orchestrator *)

Section ChainFacts.
Import Task Chain.
Variable runner : nat -> string -> run_outcome.
Variable now : Z.

Lemma chain_step_continue (len i : nat) (s0 : subtask) (t0 : task) (tr0 : trace)
      (sts_t : list subtask) :
  subtasks t0 = Some sts_t ->
  continues (sub_outcome runner i (resolve_type (st_type s0))) = true ->
  exists t' s',
    chain_step runner now len i s0 t0 tr0 =
      inl (t', snd (run_subtask runner i (resolve_type (st_type s0)) (tr_start i tr0))) /\
    subtasks t' = Some (<[i := s']> sts_t) /\
    st_status s' = outcome_status (sub_outcome runner i (resolve_type (st_type s0))).
Proof.
  intros Hsts Hc.
  unfold chain_step, run_subtask, sub_running. cbn [st_type].
  destruct (sub_outcome runner i (resolve_type (st_type s0))) as [st lg fin err res stg|m];
    [|discriminate].
  cbn in Hc. apply negb_true_iff in Hc.
  cbn. rewrite Hsts. cbn.
  destruct (String.eqb st "completed"); [|rewrite Hc];
    (eexists; eexists; split; [reflexivity|]); cbn;
    (split; [rewrite list_insert_insert_eq; reflexivity | reflexivity]).
Qed.

Lemma chain_step_error (len i : nat) (s0 : subtask) (t0 : task) (tr0 : trace)
      (sts_t : list subtask) lg fin err res stg :
  subtasks t0 = Some sts_t ->
  sub_outcome runner i (resolve_type (st_type s0)) = Finished "error" lg fin err res stg ->
  exists t' s',
    chain_step runner now len i s0 t0 tr0 =
      inr (t', snd (run_subtask runner i (resolve_type (st_type s0)) (tr_start i tr0))) /\
    subtasks t' = Some (<[i := s']> sts_t) /\
    status t' = "error" /\
    error t' = Some ("Subtask " +:+ show_nat (S i) +:+ " failed: " +:+ js_str err) /\
    currentIndex t' = i.
Proof.
  intros Hsts Hout.
  unfold chain_step, run_subtask, sub_running. cbn [st_type].
  rewrite Hout. cbn. rewrite Hsts. cbn.
  eexists; eexists; split; [reflexivity|]. cbn.
  split; [rewrite list_insert_insert_eq; reflexivity|].
  repeat split.
Qed.

Lemma started_run_subtask (i : nat) (ty : string) (tr : trace) :
  started (snd (run_subtask runner i ty tr)) = started tr.
Proof. unfold run_subtask. cbn. destruct (has_runner ty); reflexivity. Qed.

Lemma invoked_run_subtask (i : nat) (ty : string) (tr : trace) (j : nat) (ty' : string) :
  In (j, ty') (invoked (snd (run_subtask runner i ty tr))) ->
  In (j, ty') (invoked tr) \/ (j = i /\ ty' = ty /\ has_runner ty = true).
Proof.
  unfold run_subtask. cbn. destruct (has_runner ty) eqn:E; [|auto].
  cbn. rewrite in_app_iff. intros [H|[H|[]]]; [auto|].
  injection H as <- <-. auto.
Qed.

(** The loop runs up to the first subtask [k] whose run ends in
    ['error'], and returns there. *)
Lemma chain_loop_stops (sts : list subtask) (k : nat) (s : subtask) lg fin err res stg :
  sts !! k = Some s ->
  sub_outcome runner k (resolve_type (st_type s)) = Finished "error" lg fin err res stg ->
  (forall j s', j < k -> sts !! j = Some s' ->
     continues (sub_outcome runner j (resolve_type (st_type s'))) = true) ->
  forall n i t tr sts_t,
    i <= k -> k < i + n ->
    subtasks t = Some sts_t -> length sts_t = length sts ->
    (forall j, i <= j -> sts_t !! j = sts !! j) ->
    exists t' tr' sts',
      chain_loop runner now n i t tr = inr (t', tr') /\
      status t' = "error" /\
      error t' = Some ("Subtask " +:+ show_nat (S k) +:+ " failed: " +:+ js_str err) /\
      currentIndex t' = k /\
      started tr' = app (started tr) (seq i (S k - i)) /\
      (forall j ty, In (j, ty) (invoked tr') -> In (j, ty) (invoked tr) \/ j <= k) /\
      subtasks t' = Some sts' /\
      (forall j, k < j -> sts' !! j = sts !! j).
Proof.
  intros Hk Hout Hprev.
  induction n as [|n IH]; intros i t tr sts_t Hik Hkn Hsts Hlen Hsame; [lia|].
  cbn [chain_loop]. rewrite Hsts.
  pose proof (lookup_lt_Some _ _ _ Hk) as Hklen.
  destruct (sts !! i) as [si|] eqn:Hi; [|apply lookup_ge_None in Hi; lia].
  rewrite (Hsame i (le_n i)), Hi.
  destruct (Nat.eq_dec i k) as [->|Hne].
  - rewrite Hi in Hk. injection Hk as ->.
    destruct (chain_step_error (length sts_t) k s t tr sts_t lg fin err res stg Hsts Hout)
      as [t' [s' [E [Hsub [Hst [Herr Hci]]]]]].
    rewrite E.
    eexists; eexists; eexists; split; [reflexivity|].
    split; [exact Hst|]. split; [exact Herr|]. split; [exact Hci|].
    split; [rewrite started_run_subtask; cbn; replace (S k - k) with 1 by lia; reflexivity|].
    split.
    { intros j ty Hin. apply invoked_run_subtask in Hin as [Hin|[-> _]]; [|lia].
      cbn in Hin. auto. }
    split; [exact Hsub|].
    intros j Hj. rewrite list_lookup_insert_ne by lia. apply Hsame. lia.
  - assert (Hc : continues (sub_outcome runner i (resolve_type (st_type si))) = true)
      by (apply (Hprev i si); [lia | exact Hi]).
    destruct (chain_step_continue (length sts_t) i si t tr sts_t Hsts Hc)
      as [t1 [s1 [E [Hsub1 _]]]].
    rewrite E.
    destruct (IH (S i) t1 (snd (run_subtask runner i (resolve_type (st_type si)) (tr_start i tr)))
                (<[i := s1]> sts_t))
      as [t' [tr' [sts' [E' [Hst [Herr [Hci [Hstarted [Hinv [Hsub Hrest]]]]]]]]]];
      [lia | lia | exact Hsub1 | rewrite length_insert; exact Hlen
      | intros j Hj; rewrite list_lookup_insert_ne by lia; apply Hsame; lia |].
    rewrite E'.
    eexists; eexists; eexists; split; [reflexivity|].
    split; [exact Hst|]. split; [exact Herr|]. split; [exact Hci|].
    split.
    { rewrite Hstarted, started_run_subtask. cbn.
      replace (S k - i) with (S (S k - S i)) by lia. cbn.
      rewrite <- app_assoc. reflexivity. }
    split.
    { intros j ty Hin. apply Hinv in Hin as [Hin|Hin]; [|auto].
      apply invoked_run_subtask in Hin as [Hin|[-> _]]; [|right; lia].
      cbn in Hin. auto. }
    split; [exact Hsub|]. exact Hrest.
Qed.

(** When no subtask's run ends in ['error'] or an exception, the loop
    runs every subtask; each one keeps the status its run left. *)
Lemma chain_loop_completes (sts : list subtask) :
  (forall j s, sts !! j = Some s ->
     continues (sub_outcome runner j (resolve_type (st_type s))) = true) ->
  forall n i t tr sts_t,
    i + n = length sts ->
    subtasks t = Some sts_t -> length sts_t = length sts ->
    (forall j, i <= j -> sts_t !! j = sts !! j) ->
    exists t' tr' sts',
      chain_loop runner now n i t tr = inl (t', tr') /\
      subtasks t' = Some sts' /\ length sts' = length sts /\
      (forall j, j < i -> sts' !! j = sts_t !! j) /\
      (forall j s, i <= j -> sts !! j = Some s ->
         exists s', sts' !! j = Some s' /\
           st_status s' = outcome_status (sub_outcome runner j (resolve_type (st_type s)))) /\
      (forall j ty, In (j, ty) (invoked tr') ->
         In (j, ty) (invoked tr) \/
         (exists s, sts !! j = Some s /\ ty = resolve_type (st_type s) /\ has_runner ty = true)).
Proof.
  intros Hall.
  induction n as [|n IH]; intros i t tr sts_t Hn Hsts Hlen Hsame.
  - cbn. eexists; eexists; eexists; split; [reflexivity|].
    split; [exact Hsts|]. split; [exact Hlen|]. split; [reflexivity|].
    split; [intros j s Hj Hs; apply lookup_lt_Some in Hs; lia | auto].
  - cbn [chain_loop]. rewrite Hsts.
    destruct (sts !! i) as [si|] eqn:Hi; [|apply lookup_ge_None in Hi; lia].
    rewrite (Hsame i (le_n i)), Hi.
    destruct (chain_step_continue (length sts_t) i si t tr sts_t Hsts (Hall i si Hi))
      as [t1 [s1 [E [Hsub1 Hst1]]]].
    rewrite E.
    destruct (IH (S i) t1 (snd (run_subtask runner i (resolve_type (st_type si)) (tr_start i tr)))
                (<[i := s1]> sts_t))
      as [t' [tr' [sts' [E' [Hsub [Hlen' [Hbefore [Hafter Hinv]]]]]]]];
      [lia | exact Hsub1 | rewrite length_insert; exact Hlen
      | intros j Hj; rewrite list_lookup_insert_ne by lia; apply Hsame; lia |].
    rewrite E'.
    eexists; eexists; eexists; split; [reflexivity|].
    split; [exact Hsub|]. split; [exact Hlen'|].
    split.
    { intros j Hj. rewrite Hbefore by lia. apply list_lookup_insert_ne. lia. }
    split.
    { intros j s Hj Hs. destruct (Nat.eq_dec j i) as [->|Hne].
      - rewrite Hi in Hs. injection Hs as <-.
        exists s1. split; [|exact Hst1].
        rewrite Hbefore by lia. apply list_lookup_insert_eq. lia.
      - apply Hafter; [lia | exact Hs]. }
    intros j ty Hin. apply Hinv in Hin as [Hin|Hin]; [|auto].
    apply invoked_run_subtask in Hin as [Hin|[-> [-> Hr]]].
    + cbn in Hin. auto.
    + right. exists si. auto.
Qed.

(** Whatever [chain_step] returns, it has written back subtask [i] only,
    and its trace is the start of [i] followed by the runner call, if any. *)
Lemma chain_step_frame (len i : nat) (s0 : subtask) (t0 : task) (tr0 : trace)
      (sts_t : list subtask) :
  subtasks t0 = Some sts_t ->
  forall t' tr',
    (chain_step runner now len i s0 t0 tr0 = inl (t', tr') \/
     chain_step runner now len i s0 t0 tr0 = inr (t', tr')) ->
    (exists s', subtasks t' = Some (<[i := s']> sts_t)) /\
    tr' = snd (run_subtask runner i (resolve_type (st_type s0)) (tr_start i tr0)).
Proof.
  intros Hsts t' tr'.
  unfold chain_step, run_subtask, sub_running. cbn [st_type].
  destruct (sub_outcome runner i (resolve_type (st_type s0))) as [st lg fin err res stg|m];
    cbn; rewrite Hsts; cbn;
    [destruct (String.eqb st "completed"); [|destruct (String.eqb st "error")]|];
    intros [E|E]; try discriminate; injection E as <- <-;
    (split; [eexists; cbn; rewrite list_insert_insert_eq; reflexivity | reflexivity]).
Qed.

(** Whatever the loop from index [i] returns, the subtasks before [i]
    are untouched, the started indices are [i], [i+1], ... (at least [i]
    when there is an iteration to run and a subtask [i]), and every
    runner call is for some subtask [j >= i], with that subtask's
    resolved type, which has a runner. *)
Lemma chain_loop_frame (n : nat) : forall i t tr sts_t,
  subtasks t = Some sts_t ->
  forall t' tr',
    (chain_loop runner now n i t tr = inl (t', tr') \/
     chain_loop runner now n i t tr = inr (t', tr')) ->
    exists sts', subtasks t' = Some sts' /\ length sts' = length sts_t /\
      (forall j, j < i -> sts' !! j = sts_t !! j) /\
      (exists m, started tr' = app (started tr) (seq i m) /\
                 (0 < n -> i < length sts_t -> 0 < m)) /\
      (forall j ty, In (j, ty) (invoked tr') ->
         In (j, ty) (invoked tr) \/
         (i <= j /\ exists s, sts_t !! j = Some s /\ ty = resolve_type (st_type s) /\
                              has_runner ty = true)).
Proof.
  induction n as [|n IH]; intros i t tr sts_t Hsts t' tr' Hres.
  - cbn in Hres. destruct Hres as [E|E]; [|discriminate]. injection E as <- <-.
    exists sts_t. split; [exact Hsts|]. split; [reflexivity|]. split; [reflexivity|].
    split; [exists 0; split; [rewrite app_nil_r; reflexivity | lia]|].
    auto.
  - cbn [chain_loop] in Hres. rewrite Hsts in Hres.
    destruct (sts_t !! i) as [si|] eqn:Hi.
    2:{ destruct Hres as [E|E]; [|discriminate]. injection E as <- <-.
        exists sts_t. split; [exact Hsts|]. split; [reflexivity|]. split; [reflexivity|].
        split; [|auto].
        exists 0. split; [rewrite app_nil_r; reflexivity|].
        intros _ Hl. apply lookup_ge_None in Hi. lia. }
    assert (Hinv1 : forall j ty,
              In (j, ty) (invoked (snd (run_subtask runner i (resolve_type (st_type si))
                                          (tr_start i tr)))) ->
              In (j, ty) (invoked tr) \/
              (i <= j /\ exists s, sts_t !! j = Some s /\ ty = resolve_type (st_type s) /\
                                   has_runner ty = true)).
    { intros j ty Hin. apply invoked_run_subtask in Hin as [Hin|[-> [-> Hr]]].
      - cbn in Hin. auto.
      - right. split; [lia|]. exists si. auto. }
    destruct (chain_step runner now (length sts_t) i si t tr) as [[t1 tr1]|[t1 tr1]] eqn:Estep.
    + destruct (chain_step_frame (length sts_t) i si t tr sts_t Hsts t1 tr1 (or_introl Estep))
        as [[s1 Hsub1] ->].
      destruct (IH (S i) t1 _ (<[i := s1]> sts_t) Hsub1 t' tr' Hres)
        as [sts' [Hsub [Hlen [Hbefore [[m [Hst Hm]] Hinv]]]]].
      exists sts'. split; [exact Hsub|]. split; [rewrite Hlen; apply length_insert|].
      split.
      { intros j Hj. rewrite Hbefore by lia. apply list_lookup_insert_ne. lia. }
      split.
      { exists (S m). split; [|lia].
        rewrite Hst, started_run_subtask. cbn. rewrite <- app_assoc. reflexivity. }
      intros j ty Hin. apply Hinv in Hin as [Hin|[Hj [s [Hs Hr]]]]; [apply Hinv1, Hin|].
      right. split; [lia|]. exists s. split; [|exact Hr].
      rewrite list_lookup_insert_ne in Hs by lia. exact Hs.
    + destruct Hres as [E|E]; [discriminate|]. injection E as <- <-.
      destruct (chain_step_frame (length sts_t) i si t tr sts_t Hsts t1 tr1 (or_intror Estep))
        as [[s1 Hsub1] ->].
      exists (<[i := s1]> sts_t). split; [exact Hsub1|]. split; [apply length_insert|].
      split; [intros j Hj; apply list_lookup_insert_ne; lia|].
      split; [|exact Hinv1].
      exists 1. split; [|lia]. rewrite started_run_subtask. reflexivity.
Qed.

(** When the subtasks before [m] all go on, the loop from [i <= m]
    reaches [m]: it is the loop from [m] on the task and trace that the
    runs of [i .. m-1] leave, where each of those subtasks keeps the
    status its run left and the subtasks before [i] are untouched. *)
Lemma chain_loop_prefix (sts : list subtask) (m : nat) :
  (forall j s, j < m -> sts !! j = Some s ->
     continues (sub_outcome runner j (resolve_type (st_type s))) = true) ->
  forall n i t tr sts_t,
    i <= m -> m <= length sts -> i + n = length sts ->
    subtasks t = Some sts_t -> length sts_t = length sts ->
    (forall j, i <= j -> sts_t !! j = sts !! j) ->
    exists t1 tr1 sts1,
      chain_loop runner now n i t tr = chain_loop runner now (n - (m - i)) m t1 tr1 /\
      subtasks t1 = Some sts1 /\ length sts1 = length sts /\
      (forall j, j < i -> sts1 !! j = sts_t !! j) /\
      (forall j, m <= j -> sts1 !! j = sts !! j) /\
      (forall j s, i <= j -> j < m -> sts !! j = Some s ->
         exists s', sts1 !! j = Some s' /\
           st_status s' = outcome_status (sub_outcome runner j (resolve_type (st_type s)))) /\
      started tr1 = app (started tr) (seq i (m - i)).
Proof.
  intros Hpre.
  induction n as [|n IH]; intros i t tr sts_t Him Hm Hn Hsts Hlen Hsame.
  - assert (i = m) as -> by lia.
    exists t, tr, sts_t. replace (0 - (m - m)) with 0 by lia.
    split; [reflexivity|]. split; [exact Hsts|]. split; [exact Hlen|].
    split; [reflexivity|].
    split; [exact Hsame|]. split; [intros j s Hj1 Hj2; lia|].
    replace (m - m) with 0 by lia. rewrite app_nil_r. reflexivity.
  - destruct (Nat.eq_dec i m) as [->|Hne].
    { exists t, tr, sts_t. replace (S n - (m - m)) with (S n) by lia.
      split; [reflexivity|]. split; [exact Hsts|]. split; [exact Hlen|].
      split; [reflexivity|].
      split; [exact Hsame|]. split; [intros j s Hj1 Hj2; lia|].
      replace (m - m) with 0 by lia. rewrite app_nil_r. reflexivity. }
    cbn [chain_loop]. rewrite Hsts.
    destruct (sts !! i) as [si|] eqn:Hi; [|apply lookup_ge_None in Hi; lia].
    rewrite (Hsame i (le_n i)), Hi.
    assert (Hc : continues (sub_outcome runner i (resolve_type (st_type si))) = true)
      by (apply (Hpre i si); [lia | exact Hi]).
    destruct (chain_step_continue (length sts_t) i si t tr sts_t Hsts Hc)
      as [t1 [s1 [E [Hsub1 Hst1]]]].
    rewrite E.
    destruct (IH (S i) t1 (snd (run_subtask runner i (resolve_type (st_type si)) (tr_start i tr)))
                (<[i := s1]> sts_t))
      as [t2 [tr2 [sts2 [E2 [Hsub2 [Hlen2 [Hbefore [Hrest [Hdone Hst2]]]]]]]]];
      [lia | lia | lia | exact Hsub1 | rewrite length_insert; exact Hlen
      | intros j Hj; rewrite list_lookup_insert_ne by lia; apply Hsame; lia |].
    exists t2, tr2, sts2.
    split; [rewrite E2; f_equal; lia|].
    split; [exact Hsub2|]. split; [exact Hlen2|].
    split; [intros j Hj; rewrite Hbefore by lia; apply list_lookup_insert_ne; lia|].
    split; [exact Hrest|].
    split.
    { intros j s Hj1 Hj2 Hs. destruct (Nat.eq_dec j i) as [->|Hji].
      - rewrite Hi in Hs. injection Hs as <-.
        exists s1. split; [|exact Hst1].
        rewrite Hbefore by lia. apply list_lookup_insert_eq. lia.
      - apply Hdone; [lia | lia | exact Hs]. }
    rewrite Hst2, started_run_subtask. cbn.
    replace (m - i) with (S (m - S i)) by lia. cbn.
    rewrite <- app_assoc. reflexivity.
Qed.

End ChainFacts.

Section ChainClaims.
Import Task Chain.

(** C2, as the code does it. In a chained task whose subtasks before
    [k] all go on, if the run of subtask [k] leaves status ['error'],
    the parent ends in ['error'] with [currentIndex = k] and the message
    ["Subtask <k+1> failed: <error>"]: the subtask is cited by its
    1-based position. Only subtasks [0..k] were started, no runner was
    called for a later one, and the later subtasks are left as they
    were. *)
Theorem C2_chain_abort_on_failure (runner : nat -> string -> run_outcome) (now : Z)
        (t : task) (sts : list subtask) (k : nat) (s : subtask) lg fin err res stg
        (Hsts : subtasks t = Some sts) (Hk : sts !! k = Some s)
        (Hfail : sub_outcome runner k (resolve_type (st_type s)) = Finished "error" lg fin err res stg)
        (Hprev : forall j s', j < k -> sts !! j = Some s' ->
                   continues (sub_outcome runner j (resolve_type (st_type s'))) = true) :
  status (fst (runChainedTask runner now t)) = "error" /\
  error (fst (runChainedTask runner now t)) =
    Some ("Subtask " +:+ show_nat (S k) +:+ " failed: " +:+ js_str err) /\
  currentIndex (fst (runChainedTask runner now t)) = k /\
  started (snd (runChainedTask runner now t)) = seq 0 (S k) /\
  (forall j ty, In (j, ty) (invoked (snd (runChainedTask runner now t))) -> j <= k) /\
  (exists sts', subtasks (fst (runChainedTask runner now t)) = Some sts' /\
                forall j, k < j -> sts' !! j = sts !! j).
Proof.
  pose proof (lookup_lt_Some _ _ _ Hk) as Hklen.
  destruct (chain_loop_stops runner now sts k s lg fin err res stg Hk Hfail Hprev
              (length sts) 0 t (mkTrace [] []) sts)
    as [t' [tr' [sts' [E [Hst [Herr [Hci [Hstarted [Hinv [Hsub Hrest]]]]]]]]]];
    [lia | lia | exact Hsts | reflexivity | reflexivity |].
  unfold runChainedTask. rewrite Hsts, E. cbn [fst snd].
  split; [exact Hst|]. split; [exact Herr|]. split; [exact Hci|].
  split; [rewrite Hstarted; cbn; f_equal; lia|].
  split; [intros j ty Hin; apply Hinv in Hin as [[]|]; auto|].
  exists sts'. auto.
Qed.

Definition no_params : params := mkParams None None None None None.

Definition pending_subtask (ty : string) : subtask :=
  mkSubtask ty no_params "pending" [] None None None None None.

(** The chain [A; B; C] of the spec's example; B's run fails. *)
Definition chain_ABC : task :=
  mkTask "chained" None no_params None "running" None [] None None None None true
         (Some [pending_subtask "janus"; pending_subtask "workorder"; pending_subtask "janus"]) 0.

Definition runner_B_fails (i : nat) (ty : string) : run_outcome :=
  if Nat.eqb i 1 then Finished "error" [] None (Some "boom") None None
  else Finished "completed" [] None None (Some "ok") None.

Lemma C2_witness :
  subtasks chain_ABC = Some [pending_subtask "janus"; pending_subtask "workorder"; pending_subtask "janus"] /\
  status (fst (runChainedTask runner_B_fails 5 chain_ABC)) = "error" /\
  error (fst (runChainedTask runner_B_fails 5 chain_ABC)) =
    Some ("Subtask " +:+ show_nat 2 +:+ " failed: " +:+ js_str (Some "boom")) /\
  currentIndex (fst (runChainedTask runner_B_fails 5 chain_ABC)) = 1 /\
  started (snd (runChainedTask runner_B_fails 5 chain_ABC)) = seq 0 2 /\
  (forall j ty, In (j, ty) (invoked (snd (runChainedTask runner_B_fails 5 chain_ABC))) -> j <= 1) /\
  (exists sts', subtasks (fst (runChainedTask runner_B_fails 5 chain_ABC)) = Some sts' /\
     forall j, 1 < j -> sts' !! j =
       [pending_subtask "janus"; pending_subtask "workorder"; pending_subtask "janus"] !! j).
Proof.
  split; [reflexivity|].
  apply (C2_chain_abort_on_failure runner_B_fails 5 chain_ABC
           [pending_subtask "janus"; pending_subtask "workorder"; pending_subtask "janus"]
           1 (pending_subtask "workorder") [] None (Some "boom") None None).
  - reflexivity.
  - reflexivity.
  - reflexivity.
  - intros j s' Hj Hs. destruct j as [|j]; [|lia].
    cbn in Hs. injection Hs as <-. reflexivity.
Defined.

(** C2 fails as stated: in the chain [A; B; C] where B (index 1)
    fails, the parent's message is "Subtask 2 failed: boom"; it cites
    the 1-based position 2 and contains no "1". *)
Lemma C2_index_counterexample :
  error (fst (runChainedTask runner_B_fails 5 chain_ABC)) = Some "Subtask 2 failed: boom" /\
  includes "Subtask 2 failed: boom" "1" = false /\
  status (fst (runChainedTask runner_B_fails 5 chain_ABC)) = "error" /\
  started (snd (runChainedTask runner_B_fails 5 chain_ABC)) = [0; 1].
Proof. vm_compute. repeat split. Qed.

(** C10: take a subtask [k] whose resolved type is neither
    ['janus_mini_update'] nor ['janus_workorder_execute']. (1) Whatever
    the other subtasks' runs do, no runner is ever called for [k].
    (2) When the runs of the subtasks before [k] go on, so that the loop
    reaches [k], the status copied back from [k]'s untouched temporary
    task is ['running'] and stays so; the chain does not stop at [k]:
    it starts subtask [k+1] when there is one, and ends ['completed']
    when [k] is the last subtask. (3) When every other subtask's run
    completes, the parent ends ['completed'] with every subtask
    started. *)
Theorem C10_unrunnable_subtask_skipped (runner : nat -> string -> run_outcome) (now : Z)
        (t : task) (sts : list subtask) (k : nat) (s : subtask)
        (Hsts : subtasks t = Some sts) (Hk : sts !! k = Some s)
        (Hty : has_runner (resolve_type (st_type s)) = false) :
  (forall ty, ~ In (k, ty) (invoked (snd (runChainedTask runner now t)))) /\
  ((forall j s', j < k -> sts !! j = Some s' ->
      continues (sub_outcome runner j (resolve_type (st_type s'))) = true) ->
   (exists sts' s', subtasks (fst (runChainedTask runner now t)) = Some sts' /\
                    sts' !! k = Some s' /\ st_status s' = "running") /\
   (S k < length sts -> In (S k) (started (snd (runChainedTask runner now t)))) /\
   (S k = length sts -> status (fst (runChainedTask runner now t)) = "completed")) /\
  ((forall j s', j <> k -> sts !! j = Some s' ->
      outcome_status (sub_outcome runner j (resolve_type (st_type s'))) = "completed") ->
   status (fst (runChainedTask runner now t)) = "completed" /\
   started (snd (runChainedTask runner now t)) = seq 0 (length sts)).
Proof.
  pose proof (lookup_lt_Some _ _ _ Hk) as Hklen.
  assert (Hck : continues (sub_outcome runner k (resolve_type (st_type s))) = true)
    by (unfold sub_outcome; rewrite Hty; reflexivity).
  (* what [runChainedTask] returns is what the loop returns, up to the
     final status *)
  assert (Hrun : forall res,
            chain_loop runner now (length sts) 0 t (mkTrace [] []) = res ->
            exists t' tr', (res = inl (t', tr') \/ res = inr (t', tr')) /\
              subtasks (fst (runChainedTask runner now t)) = subtasks t' /\
              snd (runChainedTask runner now t) = tr').
  { intros res Eres. unfold runChainedTask. rewrite Hsts, Eres.
    destruct res as [[t' tr']|[t' tr']]; exists t', tr'; auto. }
  split.
  { intros ty Hin.
    destruct (Hrun _ eq_refl) as [t' [tr' [Hres [_ Htr]]]].
    rewrite Htr in Hin.
    destruct (chain_loop_frame runner now (length sts) 0 t (mkTrace [] []) sts Hsts t' tr' Hres)
      as [_ [_ [_ [_ [_ Hinv]]]]].
    apply Hinv in Hin as [[]|[_ [s'' [Hs'' [-> Hr]]]]].
    rewrite Hk in Hs''. injection Hs'' as <-. congruence. }
  split.
  { intros Hprev.
    assert (Hpre : forall j s', j < S k -> sts !! j = Some s' ->
              continues (sub_outcome runner j (resolve_type (st_type s'))) = true).
    { intros j s' Hj Hs'. destruct (Nat.eq_dec j k) as [->|Hne].
      - rewrite Hk in Hs'. injection Hs' as <-. exact Hck.
      - apply (Hprev j s'); [lia | exact Hs']. }
    destruct (chain_loop_prefix runner now sts (S k) Hpre (length sts) 0 t (mkTrace [] []) sts)
      as [t1 [tr1 [sts1 [E1 [Hsub1 [Hlen1 [_ [_ [Hdone Hst1]]]]]]]]];
      [lia | lia | reflexivity | exact Hsts | reflexivity | reflexivity |].
    destruct (Hdone k s (Nat.le_0_l k) (Nat.lt_succ_diag_r k) Hk) as [s1 [Hs1 Hstat1]].
    destruct (Hrun _ eq_refl) as [t' [tr' [Hres [Hsubt Htr]]]].
    rewrite E1 in Hres.
    destruct (chain_loop_frame runner now _ (S k) t1 tr1 sts1 Hsub1 t' tr' Hres)
      as [sts' [Hsub' [_ [Hbefore [[m [Hstarted Hm]] _]]]]].
    split.
    { exists sts', s1. split; [rewrite Hsubt; exact Hsub'|].
      split; [rewrite Hbefore by lia; exact Hs1|].
      rewrite Hstat1. unfold sub_outcome. rewrite Hty. reflexivity. }
    split.
    { intros Hlt. rewrite Htr, Hstarted. apply in_or_app. right.
      destruct m as [|m]; [lia|]. left. reflexivity. }
    intros Heq. unfold runChainedTask. rewrite Hsts, E1.
    replace (length sts - (S k - 0)) with 0 by lia. reflexivity. }
  intros Hothers.
  assert (Hall : forall j s', sts !! j = Some s' ->
            continues (sub_outcome runner j (resolve_type (st_type s'))) = true).
  { intros j s' Hs'. destruct (Nat.eq_dec j k) as [->|Hne].
    - rewrite Hk in Hs'. injection Hs' as <-. exact Hck.
    - specialize (Hothers j s' Hne Hs').
      destruct (sub_outcome runner j (resolve_type (st_type s'))); cbn in *;
        [subst; reflexivity | discriminate]. }
  destruct (chain_loop_completes runner now sts Hall (length sts) 0 t (mkTrace [] []) sts)
    as [t' [tr' [sts' [Eloop _]]]];
    [reflexivity | exact Hsts | reflexivity | reflexivity |].
  split; [unfold runChainedTask; rewrite Hsts, Eloop; reflexivity|].
  destruct (chain_loop_prefix runner now sts (length sts)
              (fun j s' _ Hs' => Hall j s' Hs') (length sts) 0 t (mkTrace [] []) sts)
    as [t1 [tr1 [sts1 [E1 [_ [_ [_ [_ [_ Hst1]]]]]]]]];
    [lia | lia | reflexivity | exact Hsts | reflexivity | reflexivity |].
  rewrite Eloop in E1. replace (length sts - (length sts - 0)) with 0 in E1 by lia.
  cbn in E1. injection E1 as _ <-.
  unfold runChainedTask. rewrite Hsts, Eloop. cbn [snd].
  rewrite Hst1. cbn. f_equal. lia.
Qed.

Definition runner_all_complete (i : nat) (ty : string) : run_outcome :=
  Finished "completed" [] None None (Some "ok") None.

(** A chain whose middle subtask has a type no runner handles. *)
Definition chain_with_unknown : task :=
  mkTask "chained" None no_params None "running" None [] None None None None true
         (Some [pending_subtask "janus"; pending_subtask "janus_mini_info"; pending_subtask "workorder"]) 0.

Lemma C10_witness :
  subtasks chain_with_unknown =
    Some [pending_subtask "janus"; pending_subtask "janus_mini_info"; pending_subtask "workorder"] /\
  has_runner (resolve_type (st_type (pending_subtask "janus_mini_info"))) = false /\
  (forall ty, ~ In (1, ty) (invoked (snd (runChainedTask runner_all_complete 7 chain_with_unknown)))) /\
  ((forall j s', j < 1 ->
      [pending_subtask "janus"; pending_subtask "janus_mini_info"; pending_subtask "workorder"] !! j = Some s' ->
      continues (sub_outcome runner_all_complete j (resolve_type (st_type s'))) = true) ->
   (exists sts' s', subtasks (fst (runChainedTask runner_all_complete 7 chain_with_unknown)) = Some sts' /\
                    sts' !! 1 = Some s' /\ st_status s' = "running") /\
   (2 < 3 -> In 2 (started (snd (runChainedTask runner_all_complete 7 chain_with_unknown)))) /\
   (2 = 3 -> status (fst (runChainedTask runner_all_complete 7 chain_with_unknown)) = "completed")) /\
  ((forall j s', j <> 1 ->
      [pending_subtask "janus"; pending_subtask "janus_mini_info"; pending_subtask "workorder"] !! j = Some s' ->
      outcome_status (sub_outcome runner_all_complete j (resolve_type (st_type s'))) = "completed") ->
   status (fst (runChainedTask runner_all_complete 7 chain_with_unknown)) = "completed" /\
   started (snd (runChainedTask runner_all_complete 7 chain_with_unknown)) = seq 0 3).
Proof.
  split; [reflexivity|]. split; [reflexivity|].
  exact (C10_unrunnable_subtask_skipped runner_all_complete 7 chain_with_unknown
           [pending_subtask "janus"; pending_subtask "janus_mini_info"; pending_subtask "workorder"]
           1 (pending_subtask "janus_mini_info") eq_refl eq_refl eq_refl).
Defined.

End ChainClaims.

(* ------------------------------------------------------------------ *)
(** ** Restart and screenshots *)

Section StoreClaims.
Import Task Store.

Definition cleared_subtask (s : subtask) : Prop :=
  st_status s = "pending" /\ st_logs s = [] /\ st_startTime s = None /\
  st_endTime s = None /\ st_error s = None /\ st_result s = None.

(** C8: restarting a task that is found and not running, and that has
    a subtask array, answers [restarted] and keeps under the same id in
    memory a task (with the metadata the found one carried) in status
    ['running'], set directly, with [error] and [endTime] cleared, a new
    [startTime], fresh logs and [currentIndex = 0], whose subtasks (the
    old ones, or the ones given in the request) are all ['pending'] with
    logs, times, error and result cleared; that task is what
    [saveTaskToDb] is given, and the chain runner is started next. *)
Theorem C8_restart_resets_chain (taskId : string) (u : updates) (now : Z) (w : world)
        (dt0 : Db.dbtask) (sts : list subtask)
        (Hfound : lookup_task w taskId = Some dt0)
        (Hidle : String.eqb (status (Db.d_task dt0)) "running" = false)
        (Hsts : subtasks (Db.d_task dt0) = Some sts) :
  fst (fst (restart taskId u now w)) = Restarted /\
  snd (fst (restart taskId u now w)) = Some RunChained /\
  exists t', tasks (snd (restart taskId u now w)) !! taskId =
               Some (Db.mkDbTask t' (Db.d_metadata dt0)) /\
    db_tasks (snd (restart taskId u now w)) =
      Db.saveTaskToDb taskId (Db.mkDbTask t' (Db.d_metadata dt0)) (db_tasks w) /\
    status t' = "running" /\ error t' = None /\ endTime t' = None /\
    startTime t' = Some now /\ logs t' = [(now, "Task restarted")] /\
    currentIndex t' = 0 /\
    exists sts', subtasks t' = Some sts' /\ Forall cleared_subtask sts' /\
      sts' = map reset_subtask (match u_subtasks u with
                                | Some sps => map spec_to_subtask sps
                                | None => sts
                                end).
Proof.
  assert (Hcl : forall l, Forall cleared_subtask (map reset_subtask l)).
  { intros l. induction l as [|x l IH]; cbn; constructor; [repeat split | exact IH]. }
  unfold restart. rewrite Hfound. cbv zeta. rewrite Hidle.
  destruct (u_subtasks u) as [sps|] eqn:Hu; cbn; rewrite ?Hsts; cbn; rewrite ?orb_true_r;
    (split; [reflexivity|]); (split; [reflexivity|]);
    (eexists; split; [apply lookup_insert_eq|]);
    (split; [reflexivity|]);
    cbn; repeat (split; [reflexivity|]);
    (eexists; split; [reflexivity|]); (split; [apply Hcl | reflexivity]).
Qed.

(** A finished chained task with one subtask, as stored. *)
Definition done_chain : task :=
  mkTask "chained" None (mkParams None None None None None) None "completed" None
         [(0%Z, "done")] (Some 0%Z) (Some 9%Z) None (Some "Completed 1 subtasks") true
         (Some [mkSubtask "janus_mini_update" (mkParams None None None None None) "completed"
                          [(3%Z, "ok")] (Some 1%Z) (Some 8%Z) None (Some "ok") None]) 0.

Definition world_done : world :=
  mkWorld (<["chained_1" := Db.mkDbTask done_chain None]> ∅) ∅ ∅ [].

Lemma C8_witness :
  lookup_task world_done "chained_1" = Some (Db.mkDbTask done_chain None) /\
  String.eqb (status done_chain) "running" = false /\
  fst (fst (restart "chained_1" no_updates 20 world_done)) = Restarted /\
  snd (fst (restart "chained_1" no_updates 20 world_done)) = Some RunChained /\
  exists t', tasks (snd (restart "chained_1" no_updates 20 world_done)) !! "chained_1" =
               Some (Db.mkDbTask t' None) /\
    db_tasks (snd (restart "chained_1" no_updates 20 world_done)) =
      Db.saveTaskToDb "chained_1" (Db.mkDbTask t' None) (db_tasks world_done) /\
    status t' = "running" /\ error t' = None /\ endTime t' = None /\
    startTime t' = Some 20%Z /\ logs t' = [(20%Z, "Task restarted")] /\
    currentIndex t' = 0 /\
    exists sts', subtasks t' = Some sts' /\ Forall cleared_subtask sts' /\
      sts' = map reset_subtask (match u_subtasks no_updates with
                                | Some sps => map spec_to_subtask sps
                                | None => match subtasks done_chain with
                                          | Some l => l | None => [] end
                                end).
Proof.
  assert (H1 : lookup_task world_done "chained_1" = Some (Db.mkDbTask done_chain None))
    by reflexivity.
  assert (H2 : String.eqb (status (Db.d_task (Db.mkDbTask done_chain None))) "running" = false)
    by reflexivity.
  split; [exact H1|]. split; [exact H2|].
  exact (C8_restart_resets_chain "chained_1" no_updates 20 world_done
           (Db.mkDbTask done_chain None)
           [mkSubtask "janus_mini_update" (mkParams None None None None None) "completed"
                      [(3%Z, "ok")] (Some 1%Z) (Some 8%Z) None (Some "ok") None]
           H1 H2 eq_refl).
Defined.

(** C8 fails as stated: restarting the completed chain takes the
    parent from ['completed'] straight to ['running'] in memory and in
    its stored row; there is no ['pending'] phase. *)
Lemma C8_no_pending_phase_counterexample :
  option_map (fun dt => status (Db.d_task dt)) (tasks world_done !! "chained_1") =
    Some "completed" /\
  fst (fst (restart "chained_1" no_updates 20 world_done)) = Restarted /\
  option_map (fun dt => status (Db.d_task dt))
    (tasks (snd (restart "chained_1" no_updates 20 world_done)) !! "chained_1") =
    Some "running" /\
  option_map Db.r_status (db_tasks (snd (restart "chained_1" no_updates 20 world_done))
                            !! "chained_1") = Some (Some "running").
Proof. vm_compute. repeat split. Qed.

(** C9, as the code does it: [addScreenshot] gives a captured
    screenshot the index equal to the number of screenshots the task
    has in memory and appends it, so within one run indices go
    0, 1, 2, ...; a restart empties the task's screenshots in memory
    and deletes its stored ones, so the next run numbers from 0 again. *)
Theorem C9_screenshot_indices (taskId lbl d : string) (now : Z) (w : world) :
  fst (addScreenshot taskId lbl (Some d) now w) =
    Some (length (match screenshots w !! taskId with Some l => l | None => [] end)) /\
  screenshots (snd (addScreenshot taskId lbl (Some d) now w)) !! taskId =
    Some (app (match screenshots w !! taskId with Some l => l | None => [] end)
              [mkShot lbl d now]) /\
  (forall (u : updates) (t : Z),
     match fst (fst (restart taskId u t w)) with
     | Restarted =>
         screenshots (snd (restart taskId u t w)) !! taskId = Some [] /\
         Forall (fun r => r.1.1 <> taskId) (db_shots (snd (restart taskId u t w)))
     | _ => True
     end).
Proof.
  split; [reflexivity|]. split; [cbn; apply lookup_insert_eq|].
  intros u t. unfold restart.
  destruct (lookup_task w taskId) as [t0|]; cbn; [|exact I].
  destruct (String.eqb (status (Db.d_task t0)) "running"); cbn; [exact I|].
  split; [apply lookup_insert_eq|].
  induction (db_shots w) as [|r rs IH]; cbn; [constructor|].
  destruct (String.eqb r.1.1 taskId) eqn:E; cbn; [exact IH|].
  constructor; [|exact IH].
  intros Heq. rewrite Heq, String.eqb_refl in E. discriminate.
Qed.

(** C9 fails as stated: a screenshot of the finished task gets index 0;
    after a restart the next screenshot of the same task id gets index
    0 again. *)
Lemma C9_index_reused_counterexample :
  let '(i1, w1) := addScreenshot "chained_1" "before" (Some "img1") 10 world_done in
  let '(_, _, w2) := restart "chained_1" no_updates 20 w1 in
  let '(i2, _) := addScreenshot "chained_1" "after" (Some "img2") 30 w2 in
  i1 = Some 0 /\ i2 = Some 0.
Proof. vm_compute. split; reflexivity. Qed.

End StoreClaims.

(* ================================================================== *)
(** * Further properties of the modelled code *)

(* ------------------------------------------------------------------ *)
(** ** pollForCondition *)
Section PollMore.
Import Poll.

(** A call that neither returned ready nor threw a fatal error. *)
Definition not_final (o : check_outcome) : Prop :=
  o = Returns false \/ exists m, o = Throws m /\ is_fatal m = false.

Lemma poll_loop_calls_le (f : nat -> check_outcome) (left : nat) :
  forall i c, snd (poll_loop f i left c) <= left.
Proof.
  induction left as [|left IH]; intros i c; cbn [poll_loop]; [cbn; lia|].
  destruct (f i) as [[|]|m]; [cbn; lia| |].
  - specialize (IH (S i) 0). destruct (poll_loop f (S i) left 0) as [r n]; cbn in *; lia.
  - destruct (is_fatal m); [cbn; lia|].
    destruct (Nat.leb 5 (S c)); [cbn; lia|].
    specialize (IH (S i) (S c)). destruct (poll_loop f (S i) left (S c)) as [r n]; cbn in *; lia.
Qed.

Lemma poll_loop_earlier_not_final (f : nat -> check_outcome) (left : nat) :
  forall i c r n, poll_loop f i left c = (r, n) ->
  forall j, i <= j -> j + 1 < i + n -> not_final (f j).
Proof.
  induction left as [|left IH]; intros i c r n E j Hj Hn; cbn [poll_loop] in E.
  - injection E as _ <-. lia.
  - destruct (f i) as [[|]|m] eqn:Ef.
    + injection E as _ <-. lia.
    + destruct (poll_loop f (S i) left 0) as [r' n'] eqn:E'. injection E as _ <-.
      destruct (Nat.eq_dec j i) as [->|Hne]; [left; exact Ef|].
      apply (IH (S i) 0 r' n' E'); lia.
    + destruct (is_fatal m) eqn:Hm; [injection E as _ <-; lia|].
      destruct (Nat.leb 5 (S c)); [injection E as _ <-; lia|].
      destruct (poll_loop f (S i) left (S c)) as [r' n'] eqn:E'. injection E as _ <-.
      destruct (Nat.eq_dec j i) as [->|Hne]; [right; exists m; split; assumption|].
      apply (IH (S i) (S c) r' n' E'); lia.
Qed.

Lemma poll_loop_timed_out (f : nat -> check_outcome) (left : nat) :
  forall i c n, poll_loop f i left c = (TimedOut, n) ->
  n = left /\ forall j, i <= j < i + n -> not_final (f j).
Proof.
  induction left as [|left IH]; intros i c n E; cbn [poll_loop] in E.
  - injection E as <-. split; [reflexivity | intros; lia].
  - destruct (f i) as [[|]|m] eqn:Ef; [discriminate| |].
    + destruct (poll_loop f (S i) left 0) as [r' n'] eqn:E'. injection E as -> <-.
      destruct (IH (S i) 0 n' E') as [-> Hall]. split; [reflexivity|].
      intros j Hj. destruct (Nat.eq_dec j i) as [->|Hne]; [left; exact Ef|].
      apply Hall; lia.
    + destruct (is_fatal m) eqn:Hm; [discriminate|].
      destruct (Nat.leb 5 (S c)); [discriminate|].
      destruct (poll_loop f (S i) left (S c)) as [r' n'] eqn:E'. injection E as -> <-.
      destruct (IH (S i) (S c) n' E') as [-> Hall]. split; [reflexivity|].
      intros j Hj. destruct (Nat.eq_dec j i) as [->|Hne]; [right; exists m; split; assumption|].
      apply Hall; lia.
Qed.

Lemma poll_loop_last_call (f : nat -> check_outcome) (left : nat) :
  forall i c r n, poll_loop f i left c = (r, n) ->
  match r with
  | ReadyResult => 0 < n /\ f (i + n - 1) = Returns true
  | FatalError m => 0 < n /\ f (i + n - 1) = Throws m /\ is_fatal m = true
  | TooManyErrors m => 0 < n /\ f (i + n - 1) = Throws m /\ is_fatal m = false
  | TimedOut => True
  end.
Proof.
  induction left as [|left IH]; intros i c r n E; cbn [poll_loop] in E.
  - injection E as <- <-. exact I.
  - destruct (f i) as [[|]|m] eqn:Ef.
    + injection E as <- <-. split; [lia|]. replace (i + 1 - 1) with i by lia. exact Ef.
    + destruct (poll_loop f (S i) left 0) as [r' n'] eqn:E'. injection E as <- <-.
      specialize (IH (S i) 0 r' n' E').
      destruct r'; try exact I; replace (i + S n' - 1) with (S i + n' - 1) by lia;
        intuition lia.
    + destruct (is_fatal m) eqn:Hm.
      { injection E as <- <-. replace (i + 1 - 1) with i by lia. auto. }
      destruct (Nat.leb 5 (S c)).
      { injection E as <- <-. replace (i + 1 - 1) with i by lia. auto. }
      destruct (poll_loop f (S i) left (S c)) as [r' n'] eqn:E'. injection E as <- <-.
      specialize (IH (S i) (S c) r' n' E').
      destruct r'; try exact I; replace (i + S n' - 1) with (S i + n' - 1) by lia;
        intuition lia.
Qed.

Lemma poll_loop_too_many (f : nat -> check_outcome) (left : nat) :
  forall i c m n, c < 5 -> poll_loop f i left c = (TooManyErrors m, n) ->
  5 - c <= n /\
  forall j, i + n - 5 <= j -> i <= j -> j < i + n ->
  exists m', f j = Throws m' /\ is_fatal m' = false.
Proof.
  induction left as [|left IH]; intros i c m n Hc E; cbn [poll_loop] in E; [discriminate|].
  destruct (f i) as [[|]|m0] eqn:Ef; [discriminate| |].
  - destruct (poll_loop f (S i) left 0) as [r' n'] eqn:E'. injection E as -> <-.
    destruct (IH (S i) 0 m n' ltac:(lia) E') as [Hn Hw]. split; [lia|].
    intros j H1 H2 H3. apply Hw; lia.
  - destruct (is_fatal m0) eqn:Hm; [discriminate|].
    destruct (Nat.leb 5 (S c)) eqn:Hl.
    + injection E as <- <-. apply Nat.leb_le in Hl. split; [lia|].
      intros j H1 H2 H3. assert (j = i) as -> by lia. exists m0. split; assumption.
    + apply Nat.leb_gt in Hl.
      destruct (poll_loop f (S i) left (S c)) as [r' n'] eqn:E'. injection E as -> <-.
      destruct (IH (S i) (S c) m n' Hl E') as [Hn Hw]. split; [lia|].
      intros j H1 H2 H3. destruct (Nat.eq_dec j i) as [->|Hne].
      * exists m0. split; assumption.
      * apply Hw; lia.
Qed.

End PollMore.

(** The error limit: [pollForCondition] reports [tooManyErrors] only
    after at least five calls, the last five of which all threw
    non-fatal errors, the last one with the reported message. *)
Theorem poll_too_many_errors_window (checkFn : nat -> Poll.check_outcome)
        (timeout interval : Z) (m : string) (n : nat)
        (H : Poll.pollForCondition checkFn timeout interval = (Poll.TooManyErrors m, n)) :
  5 <= n /\ checkFn (n - 1) = Poll.Throws m /\
  forall j, n - 5 <= j < n -> exists m', checkFn j = Poll.Throws m' /\ Poll.is_fatal m' = false.
Proof.
  unfold Poll.pollForCondition in H.
  destruct (poll_loop_too_many checkFn _ 0 0 m n ltac:(lia) H) as [Hn Hw].
  pose proof (poll_loop_last_call checkFn _ 0 0 _ n H) as [_ [Hl _]].
  split; [lia|]. split; [exact Hl|]. intros j Hj. apply Hw; lia.
Qed.

Lemma poll_too_many_errors_window_witness :
  Poll.pollForCondition (fun i => if Nat.ltb i 2 then Poll.Returns false else Poll.Throws "boom")
    30000 1000 = (Poll.TooManyErrors "boom", 7) /\
  5 <= 7 /\ (fun i => if Nat.ltb i 2 then Poll.Returns false else Poll.Throws "boom") (7 - 1)
              = Poll.Throws "boom" /\
  forall j, 7 - 5 <= j < 7 ->
    exists m', (fun i => if Nat.ltb i 2 then Poll.Returns false else Poll.Throws "boom") j
               = Poll.Throws m' /\ Poll.is_fatal m' = false.
Proof.
  assert (E : Poll.pollForCondition
                (fun i => if Nat.ltb i 2 then Poll.Returns false else Poll.Throws "boom")
                30000 1000 = (Poll.TooManyErrors "boom", 7)) by reflexivity.
  split; [exact E|].
  exact (poll_too_many_errors_window _ 30000 1000 "boom" 7 E).
Defined.

(** Exhaustion: [pollForCondition] never calls [checkFn] more than
    [maxAttempts] times; it reports [timedOut] only after exactly
    [maxAttempts] calls, none of which returned ready or threw a fatal
    error. *)
Theorem poll_timed_out_exhausts (checkFn : nat -> Poll.check_outcome) (timeout interval : Z) :
  snd (Poll.pollForCondition checkFn timeout interval) <= Poll.maxAttempts timeout interval /\
  (fst (Poll.pollForCondition checkFn timeout interval) = Poll.TimedOut ->
   snd (Poll.pollForCondition checkFn timeout interval) = Poll.maxAttempts timeout interval /\
   forall j, j < Poll.maxAttempts timeout interval -> not_final (checkFn j)).
Proof.
  unfold Poll.pollForCondition. split; [apply poll_loop_calls_le|].
  destruct (Poll.poll_loop checkFn 0 (Poll.maxAttempts timeout interval) 0) as [r n] eqn:E.
  cbn. intros ->. destruct (poll_loop_timed_out checkFn _ 0 0 n E) as [-> Hall].
  split; [reflexivity|]. intros j Hj. apply Hall; lia.
Qed.

(** What a result reports is what the last call did: [ready] means the
    last call resolved ready, [fatalError] that it threw the reported
    fatal message; every earlier call resolved not ready or threw a
    non-fatal error. *)
Theorem poll_result_last_call (checkFn : nat -> Poll.check_outcome) (timeout interval : Z) :
  let '(r, n) := Poll.pollForCondition checkFn timeout interval in
  (forall j, j + 1 < n -> not_final (checkFn j)) /\
  match r with
  | Poll.ReadyResult => 0 < n /\ checkFn (n - 1) = Poll.Returns true
  | Poll.FatalError m => 0 < n /\ checkFn (n - 1) = Poll.Throws m /\ Poll.is_fatal m = true
  | _ => True
  end.
Proof.
  unfold Poll.pollForCondition.
  destruct (Poll.poll_loop checkFn 0 (Poll.maxAttempts timeout interval) 0) as [r n] eqn:E.
  split.
  - intros j Hj. apply (poll_loop_earlier_not_final checkFn _ 0 0 r n E); lia.
  - pose proof (poll_loop_last_call checkFn _ 0 0 r n E) as Hl. destruct r; auto.
Qed.

(* ------------------------------------------------------------------ *)
(** ** The browser pool: [close], histories, [getStatus] *)
Section PoolMore.
Import Pool PoolOps.

(** [push_capped] keeps the newest [cap] entries of the history with
    the new entry appended. *)
Lemma push_capped_slice {A} (cap : nat) (h : list A) (e : A) :
  push_capped cap h e = slice_last cap (app h [e]).
Proof.
  unfold push_capped, slice_last.
  destruct (Nat.ltb cap (length (app h [e]))) eqn:E; [reflexivity|].
  apply Nat.ltb_ge in E. replace (length (app h [e]) - cap) with 0 by lia. reflexivity.
Qed.

Lemma slice_last_length {A} (n : nat) (l : list A) : length (slice_last n l) = Nat.min n (length l).
Proof. unfold slice_last. rewrite length_skipn. lia. Qed.

Lemma slice_last_app_slice {A} (n : nat) (l x : list A) :
  slice_last n (app (slice_last n l) x) = slice_last n (app l x).
Proof.
  unfold slice_last.
  set (k := length l - n).
  assert (Happ : app (skipn k l) x = skipn k (app l x)).
  { rewrite skipn_app. replace (k - length l) with 0 by lia. reflexivity. }
  rewrite Happ, skipn_skipn, length_skipn, length_app.
  f_equal. lia.
Qed.

Lemma fold_push_capped {A} (cap : nat) (es : list A) : forall h,
  fold_left (push_capped cap) es (slice_last cap h) = slice_last cap (app h es).
Proof.
  induction es as [|e es IH]; intros h; cbn.
  - rewrite app_nil_r. reflexivity.
  - rewrite push_capped_slice, slice_last_app_slice.
    replace (app h (e :: es)) with (app (app h [e]) es) by (rewrite <- app_assoc; reflexivity).
    rewrite <- IH. reflexivity.
Qed.

Lemma fold_left_map_gen {A B C} (f : A -> B -> A) (g : C -> B) (l : list C) :
  forall a, fold_left f (map g l) a = fold_left (fun a c => f a (g c)) l a.
Proof. induction l as [|x l IH]; intros a; cbn; [reflexivity | apply IH]. Qed.

Lemma In_skipn_In {A} (k : nat) (l : list A) (x : A) : In x (skipn k l) -> In x l.
Proof. intros H. rewrite <- (firstn_skipn k l). apply in_app_iff. right. exact H. Qed.

Lemma substring_length_le (s : string) : forall n m, String.length (substring n m s) <= m.
Proof.
  induction s as [|c s IH]; intros [|n] [|m]; cbn; try lia.
  - specialize (IH 0 m). lia.
  - apply IH.
  - apply IH.
Qed.

Lemma slice_last_id {A} (n : nat) (l : list A) : length l <= n -> slice_last n l = l.
Proof. intros H. unfold slice_last. replace (length l - n) with 0 by lia. reflexivity. Qed.

Lemma existsb_eqb_In (x : string) (l : list string) :
  existsb (String.eqb x) l = true <-> In x l.
Proof.
  rewrite existsb_exists. split.
  - intros [y [Hy E]]. apply String.eqb_eq in E. subst. exact Hy.
  - intros H. exists x. split; [exact H | apply String.eqb_refl].
Qed.

Lemma set_add_all_spec (xs : list string) : forall seen,
  NoDup seen ->
  NoDup (set_add_all seen xs) /\
  (forall d, In d (set_add_all seen xs) <-> In d seen \/ In d xs).
Proof.
  induction xs as [|x xs IH]; intros seen Hs; cbn.
  - split; [exact Hs|]. intros d; tauto.
  - destruct (existsb (String.eqb x) seen) eqn:E.
    + apply existsb_eqb_In in E.
      destruct (IH seen Hs) as [H1 H2]. split; [exact H1|].
      intros d. rewrite H2. split; [tauto|]. intros [H|[<-|H]]; tauto.
    + assert (Hn : ~ In x seen) by (intros H; apply existsb_eqb_In in H; congruence).
      assert (Hs' : NoDup (app seen [x])).
      { apply NoDup_app. split; [exact Hs|]. split; [|apply NoDup_singleton].
        intros y Hy Hx. apply list_elem_of_singleton in Hx. subst y.
        apply list_elem_of_In in Hy. contradiction. }
      destruct (IH _ Hs') as [H1 H2]. split; [exact H1|].
      intros d. rewrite H2, in_app_iff. cbn. tauto.
Qed.

End PoolMore.

(** [close()]: afterwards no timer is pending and the pool holds no
    browser. With a browser it also clears [inUse], [createdAt] and both
    histories; without one it only clears the timer, keeping the
    histories. The next [getBrowser] launches a new browser with a
    process id no earlier launch had. *)
Theorem pool_close_then_getBrowser (p : Pool.pool) (now : Z) (alive : bool) :
  let q := PoolOps.close p in
  Pool.idleTimer q = None /\ Pool.hasInstance q = false /\
  (Pool.browser p <> None ->
   Pool.inUse q = false /\ Pool.createdAt q = None /\
   Pool.urlHistory q = [] /\ Pool.taskHistory q = []) /\
  (Pool.browser p = None ->
   Pool.inUse q = Pool.inUse p /\ Pool.urlHistory q = Pool.urlHistory p /\
   Pool.taskHistory q = Pool.taskHistory p) /\
  Pool.cached (fst (Pool.getBrowser now alive q)) = false /\
  Pool.a_pid (fst (Pool.getBrowser now alive q)) = Some (Pool.next_proc p).
Proof.
  unfold PoolOps.close. cbn [Pool.browser Pool.set_idleTimer].
  destruct (Pool.browser p) as [b|] eqn:Hb; cbn.
  - repeat split; try reflexivity; try congruence; intros H; discriminate H.
  - repeat split; try reflexivity; try congruence;
      unfold Pool.hasInstance, Pool.getBrowser; cbn; rewrite Hb; reflexivity.
Qed.

(** [recordTask]: whatever the calls, [taskHistory] is the newest 20
    entries of everything recorded since the history was last cleared,
    oldest first. *)
Theorem recordTask_keeps_last_20 (calls : list (string * string * Z)) :
  let h := fold_left (fun h c => PoolOps.recordTask c.1.1 c.1.2 c.2 h) calls [] in
  h = PoolOps.slice_last 20 (map (fun c => PoolOps.mkTaskEntry c.1.1 c.1.2 c.2) calls) /\
  length h = Nat.min 20 (length calls).
Proof.
  cbn zeta.
  assert (E : forall h0,
    fold_left (fun h c => PoolOps.recordTask c.1.1 c.1.2 c.2 h) calls (PoolOps.slice_last 20 h0) =
    PoolOps.slice_last 20 (app h0 (map (fun c => PoolOps.mkTaskEntry c.1.1 c.1.2 c.2) calls))).
  { intros h0. rewrite <- fold_push_capped, fold_left_map_gen. reflexivity. }
  specialize (E []).
  change (PoolOps.slice_last 20 []) with (@nil PoolOps.task_entry) in E.
  rewrite app_nil_l in E. rewrite E.
  split; [reflexivity|]. rewrite slice_last_length, length_map. reflexivity.
Qed.

(** [recordUrl]: an empty URL, [about:blank] and a URL the [URL]
    constructor rejects leave the history as it is; from a history of
    at most 50 entries whose URLs have at most 200 characters, any
    sequence of calls keeps both bounds, the URL being cut to its first
    200 characters. *)
Theorem recordUrl_bounds (hostname_of : string -> option string)
        (calls : list (string * option string * Z)) (h0 : list PoolOps.url_entry)
        (H50 : length h0 <= 50)
        (H200 : forall e, In e h0 -> String.length (PoolOps.ue_url e) <= 200) :
  (forall url tid now h, (url = "" \/ url = "about:blank" \/ hostname_of url = None) ->
     PoolOps.recordUrl hostname_of url tid now h = h) /\
  let h := fold_left (fun h c => PoolOps.recordUrl hostname_of c.1.1 c.1.2 c.2 h) calls h0 in
  length h <= 50 /\ forall e, In e h -> String.length (PoolOps.ue_url e) <= 200.
Proof.
  split.
  - intros url tid now h Hs. unfold PoolOps.recordUrl.
    destruct Hs as [->|[->|Hn]]; [reflexivity|reflexivity|].
    destruct (_ || _); [reflexivity|]. rewrite Hn. reflexivity.
  - revert h0 H50 H200. induction calls as [|c calls IH]; intros h0 H50 H200; cbn.
    + split; assumption.
    + apply IH.
      * unfold PoolOps.recordUrl. destruct (_ || _); [exact H50|].
        destruct (hostname_of _); [|exact H50].
        rewrite push_capped_slice, slice_last_length. lia.
      * intros e He. unfold PoolOps.recordUrl in He. destruct (_ || _); [auto|].
        destruct (hostname_of _); [|auto].
        rewrite push_capped_slice in He. unfold PoolOps.slice_last in He.
        apply In_skipn_In in He. apply in_app_iff in He. destruct He as [He|[<-|[]]]; [auto|].
        cbn [PoolOps.ue_url]. apply substring_length_le.
Qed.

Lemma recordUrl_bounds_witness :
  length (@nil PoolOps.url_entry) <= 50 /\
  (forall e, In e (@nil PoolOps.url_entry) -> String.length (PoolOps.ue_url e) <= 200) /\
  ((forall url tid now h, (url = "" \/ url = "about:blank" \/ (fun _ => Some "example.com") url = None) ->
     PoolOps.recordUrl (fun _ => Some "example.com") url tid now h = h) /\
   let h := fold_left (fun h c => PoolOps.recordUrl (fun _ => Some "example.com") c.1.1 c.1.2 c.2 h)
                      [("https://example.com/", None, 0%Z)] [] in
   length h <= 50 /\ forall e, In e h -> String.length (PoolOps.ue_url e) <= 200).
Proof.
  assert (H1 : length (@nil PoolOps.url_entry) <= 50) by (cbn; lia).
  assert (H2 : forall e, In e (@nil PoolOps.url_entry) -> String.length (PoolOps.ue_url e) <= 200)
    by (intros e []).
  split; [exact H1|]. split; [exact H2|].
  exact (recordUrl_bounds (fun _ => Some "example.com") [("https://example.com/", None, 0%Z)] []
           H1 H2).
Defined.

(** [getStatus()]: [domains] lists every hostname of the URL history
    exactly once; [recentUrls] and [recentTasks] hold the newest 10 and
    5 entries, newest first. *)
Theorem getStatus_views (p : Pool.pool) (urls : list PoolOps.url_entry)
        (tsks : list PoolOps.task_entry) :
  let s := PoolOps.getStatus p urls tsks in
  NoDup (PoolOps.sv_domains s) /\
  (forall d, In d (PoolOps.sv_domains s) <-> exists e, In e urls /\ PoolOps.ue_domain e = d) /\
  length (PoolOps.sv_recentUrls s) = Nat.min 10 (length urls) /\
  length (PoolOps.sv_recentTasks s) = Nat.min 5 (length tsks) /\
  (forall e tsks', tsks = app tsks' [e] -> hd_error (PoolOps.sv_recentTasks s) = Some e) /\
  (forall e urls', urls = app urls' [e] -> hd_error (PoolOps.sv_recentUrls s) = Some e).
Proof.
  cbn zeta. unfold PoolOps.getStatus; cbn.
  destruct (set_add_all_spec (map PoolOps.ue_domain urls) [] ltac:(constructor)) as [H1 H2].
  split; [exact H1|]. split.
  { intros d. rewrite H2, in_map_iff. cbn. firstorder. }
  rewrite !length_rev, !slice_last_length. split; [reflexivity|]. split; [reflexivity|].
  split.
  - intros e tsks' ->. unfold PoolOps.slice_last.
    rewrite length_app. cbn. rewrite skipn_app.
    replace (length tsks' + 1 - 5 - length tsks') with 0 by lia. rewrite rev_app_distr. cbn.
    reflexivity.
  - intros e urls' ->. unfold PoolOps.slice_last.
    rewrite length_app. cbn. rewrite skipn_app.
    replace (length urls' + 1 - 10 - length urls') with 0 by lia. rewrite rev_app_distr. cbn.
    reflexivity.
Qed.

(* ------------------------------------------------------------------ *)
(** ** Browser launch arguments and the proxy route table *)
Section ArgsMore.
Import Args.

Lemma In_allArgs (COMMON browserArgs : list string) (x : string) :
  In x (allArgs COMMON browserArgs) <-> In x COMMON \/ In x browserArgs.
Proof.
  unfold allArgs. rewrite in_app_iff, <- !list_elem_of_In, list_elem_of_filter.
  rewrite !list_elem_of_In.
  destruct (existsb (String.eqb x) COMMON) eqn:E.
  - apply existsb_eqb_In in E. cbn. tauto.
  - cbn. tauto.
Qed.

Lemma proxy_arg_not_fixed (port : nat) (x : string) :
  In x ["--window-size=1600,1000"; "--force-device-scale-factor=1";
        "--disable-accelerated-2d-canvas"; "--disable-gpu-compositing";
        "--enable-features=NetworkService,NetworkServiceInProcess"] ->
  x <> proxy_arg port.
Proof.
  unfold proxy_arg. intros Hx E. subst x. cbn in Hx.
  repeat (destruct Hx as [Hx|Hx]; [discriminate Hx|]). exact Hx.
Qed.

End ArgsMore.

(** The arguments a launch uses, [allArgs COMMON_BROWSER_ARGS
    (getBrowserArgs ...)]: they start with [COMMON_BROWSER_ARGS]; every
    argument [getBrowserArgs] asked for is present; the
    [--proxy-server] argument is present exactly when [proxyEnabled] is
    set (the common list not containing it); and no argument is repeated
    when the common list has no repetition. *)
Theorem launch_args (cfg : Proxy.proxy_config) (port : nat) (COMMON : list string)
        (Hc : ~ In (Args.proxy_arg port) COMMON) :
  let a := Args.allArgs COMMON (Args.getBrowserArgs cfg port) in
  firstn (length COMMON) a = COMMON /\
  (forall x, In x (Args.getBrowserArgs cfg port) -> In x a) /\
  (In (Args.proxy_arg port) a <-> Proxy.proxyEnabled cfg = true) /\
  (NoDup COMMON -> NoDup a).
Proof.
  cbn zeta. split; [unfold Args.allArgs; rewrite firstn_app, firstn_all, Nat.sub_diag; apply app_nil_r|].
  split; [intros x Hx; apply In_allArgs; right; exact Hx|].
  split.
  - rewrite In_allArgs. unfold Args.getBrowserArgs.
    rewrite in_app_iff. split.
    + intros [H|[H|H]]; [contradiction| |].
      * exfalso. exact (proxy_arg_not_fixed port _ H eq_refl).
      * destruct (Proxy.proxyEnabled cfg); [reflexivity|destruct H].
    + intros ->. right. right. left. reflexivity.
  - intros Hn. unfold Args.allArgs. apply NoDup_app. split; [exact Hn|]. split.
    + intros x Hx Hf. apply list_elem_of_filter in Hf as [Hf _].
      apply list_elem_of_In in Hx. apply existsb_eqb_In in Hx. rewrite Hx in Hf.
      cbn in Hf. first [discriminate Hf | exact Hf].
    + apply NoDup_filter. unfold Args.getBrowserArgs.
      apply NoDup_app. split; [apply NoDup_ListNoDup; repeat constructor; cbn; intuition discriminate|].
      split.
      * intros x Hx Hp. destruct (Proxy.proxyEnabled cfg); [|apply list_elem_of_In in Hp; destruct Hp].
        apply list_elem_of_singleton in Hp. apply list_elem_of_In in Hx.
        exact (proxy_arg_not_fixed port x Hx Hp).
      * destruct (Proxy.proxyEnabled cfg); [apply NoDup_singleton | constructor].
Qed.

Lemma launch_args_witness :
  ~ In (Args.proxy_arg 3128) ["--no-sandbox"] /\
  let a := Args.allArgs ["--no-sandbox"]
             (Args.getBrowserArgs (Proxy.mkProxyConfig None 1080 true) 3128) in
  firstn (length ["--no-sandbox"]) a = ["--no-sandbox"] /\
  (forall x, In x (Args.getBrowserArgs (Proxy.mkProxyConfig None 1080 true) 3128) -> In x a) /\
  (In (Args.proxy_arg 3128) a <-> Proxy.proxyEnabled (Proxy.mkProxyConfig None 1080 true) = true) /\
  (NoDup ["--no-sandbox"] -> NoDup a).
Proof.
  assert (Hc : ~ In (Args.proxy_arg 3128) ["--no-sandbox"]).
  { intros [H|[]]. discriminate H. }
  split; [exact Hc|].
  exact (launch_args (Proxy.mkProxyConfig None 1080 true) 3128 ["--no-sandbox"] Hc).
Defined.

(** [updateProxyConfig] followed by a CONNECT: the selective proxy reads
    the updated table. Once the domain list is replaced by [ds], a
    hostname matching [ds] goes through the tunnel helper only, on the
    new port when a nonzero one was given, and on the previous port when
    the update's port is absent or 0; when that port is not a valid one,
    [net.connect] throws and nothing is opened. *)
Theorem proxy_update_routes (u : ProxyUpdate.proxy_updates) (cfg : Proxy.proxy_config)
        (url : string) (direct : string -> Z -> Proxy.direct_outcome)
        (tunnel : Proxy.tunnel_outcome) (ds : list string)
        (Hd : ProxyUpdate.up_macProxyDomains u = Some ds)
        (Hm : includes_some (Proxy.url_hostname url) ds = true) :
  let port := Proxy.port_or_443 (Proxy.parseInt (nth_error (Proxy.split_colon url) 1)) in
  let r := Proxy.on_connect (ProxyUpdate.updateProxyConfig u cfg) url direct tunnel in
  (forall n, ProxyUpdate.up_macProxyPort u = Some n -> n <> 0%Z ->
     (Proxy.valid_port n = true -> fst r = [Proxy.ViaMac (Proxy.url_hostname url) port n]) /\
     (Proxy.valid_port n = false -> r = ([], Proxy.Thrown))) /\
  (ProxyUpdate.up_macProxyPort u = None \/ ProxyUpdate.up_macProxyPort u = Some 0%Z ->
     (Proxy.valid_port (Proxy.macProxyPort cfg) = true ->
        fst r = [Proxy.ViaMac (Proxy.url_hostname url) port (Proxy.macProxyPort cfg)]) /\
     (Proxy.valid_port (Proxy.macProxyPort cfg) = false -> r = ([], Proxy.Thrown))).
Proof.
  cbn zeta. unfold Proxy.on_connect, ProxyUpdate.updateProxyConfig, Proxy.url_hostname in *.
  cbn [Proxy.macProxyDomains Proxy.macProxyPort]. rewrite Hd, Hm.
  unfold Proxy.connectViaMac.
  split.
  - intros n Hn Hnz. rewrite Hn. apply Z.eqb_neq in Hnz. rewrite Hnz.
    split; intros Hv; rewrite Hv; reflexivity.
  - intros [Hn|Hn]; rewrite Hn; cbn [Z.eqb];
      (split; intros Hv; rewrite Hv; reflexivity).
Qed.

Lemma proxy_update_routes_witness :
  ProxyUpdate.up_macProxyDomains (ProxyUpdate.mkProxyUpdates (Some ["tos"]) (Some 1080%Z) None)
    = Some ["tos"] /\
  includes_some (Proxy.url_hostname "cdn-tos.example:443") ["tos"] = true /\
  fst (Proxy.on_connect
         (ProxyUpdate.updateProxyConfig (ProxyUpdate.mkProxyUpdates (Some ["tos"]) (Some 1080%Z) None)
            (Proxy.mkProxyConfig None 2000 true))
         "cdn-tos.example:443" (fun _ _ => Proxy.DirectConnected) Proxy.TunnelError)
  = [Proxy.ViaMac "cdn-tos.example" 443 1080].
Proof.
  assert (Hd : ProxyUpdate.up_macProxyDomains
                 (ProxyUpdate.mkProxyUpdates (Some ["tos"]) (Some 1080%Z) None) = Some ["tos"])
    by reflexivity.
  assert (Hm : includes_some (Proxy.url_hostname "cdn-tos.example:443") ["tos"] = true)
    by reflexivity.
  split; [exact Hd|]. split; [exact Hm|].
  destruct (proxy_update_routes _ (Proxy.mkProxyConfig None 2000 true) "cdn-tos.example:443"
              (fun _ _ => Proxy.DirectConnected) Proxy.TunnelError ["tos"] Hd Hm) as [H _].
  exact (proj1 (H 1080%Z eq_refl ltac:(lia)) eq_refl).
Defined.

(* ------------------------------------------------------------------ *)
(** ** runJanusTask *)
Section JanusMore.
Import Janus.

(** How the last call of a run ended decides the task's final state. *)
Definition janus_final (o : option string) (t : jtask) : Prop :=
  match o with
  | None => status t = "completed" /\
            result t = Some ("IDL branch updated to " +:+ template_str (idl_branch t))
  | Some m => status t = "error" /\ error t = Some m
  end.

Lemma janus_fuel_shape (logic : nat -> option string) :
  forall fuel r t0, MAX_RETRIES - r < fuel ->
  exists k, r <= k <= Nat.max r MAX_RETRIES /\
    attempts (runJanusTask_fuel fuel logic r t0) = attempts t0 + (k - r + 1) /\
    retry_closes (runJanusTask_fuel fuel logic r t0) = retry_closes t0 + (k - r) /\
    (forall j, r <= j < k -> exists m, logic j = Some m /\
       is_cookie_error m = false /\ is_context_destroyed m = true) /\
    janus_final (logic k) (runJanusTask_fuel fuel logic r t0).
Proof.
  induction fuel as [|fuel IH]; intros r t0 Hf; [lia|].
  cbn [runJanusTask_fuel].
  destruct (logic r) as [m|] eqn:Hl.
  - destruct (is_cookie_error m) eqn:Hc.
    + exists r. rewrite Hl. cbn. repeat split; try lia.
    + destruct (is_context_destroyed m && Nat.ltb r MAX_RETRIES) eqn:E.
      * apply andb_prop in E as [Hd E]. apply Nat.ltb_lt in E.
        destruct (IH (S r) (mkJTask (idl_branch (start_call t0)) (status (start_call t0)) (error (start_call t0))
                             (result (start_call t0)) (attempts (start_call t0))
                             (S (retry_closes (start_call t0)))) ltac:(lia))
          as [k [Hk [Ha [Hr [Hprev Hfin]]]]].
        exists k. cbn [start_call status error result attempts retry_closes] in Ha, Hr, Hfin |- *.
        split; [lia|]. split; [rewrite Ha; lia|].
        split; [rewrite Hr; lia|]. split; [|exact Hfin].
        intros j Hj. destruct (Nat.eq_dec j r) as [->|Hne].
        { exists m. auto. }
        apply Hprev. lia.
      * exists r. rewrite Hl. cbn. repeat split; try lia.
  - exists r. rewrite Hl. cbn. repeat split; try lia.
Qed.

End JanusMore.

(** A run of [runJanusTask] from a fresh task, for any behaviour of the
    page automation: it makes [k + 1] calls for some [k <= 3], closes
    the browser for a retry exactly [k] times, every call before the
    last threw an "Execution context was destroyed" error without the
    cookie words, and the last call decides the outcome: ['completed']
    with result "IDL branch updated to <idl_branch>" when it finished,
    ['error'] with its own message when it threw. *)
Theorem janus_run_shape (logic : nat -> option string) (branch : option string) :
  let t := Janus.runJanusTask logic 0 (Janus.fresh_task branch) in
  exists k, k <= Janus.MAX_RETRIES /\
    Janus.attempts t = S k /\ Janus.retry_closes t = k /\
    (forall j, j < k -> exists m, logic j = Some m /\
       Janus.is_cookie_error m = false /\ Janus.is_context_destroyed m = true) /\
    janus_final (logic k) t.
Proof.
  cbn zeta. unfold Janus.runJanusTask.
  destruct (janus_fuel_shape logic (S Janus.MAX_RETRIES - 0 + 1) 0 (Janus.fresh_task branch)
              ltac:(cbn; lia)) as [k [Hk [Ha [Hr [Hprev Hfin]]]]].
  exists k. unfold Janus.MAX_RETRIES in Hk. cbn in Hk. split; [unfold Janus.MAX_RETRIES; lia|].
  split; [rewrite Ha; cbn; lia|]. split; [rewrite Hr; cbn; lia|].
  split; [intros j Hj; apply Hprev; lia | exact Hfin].
Qed.

(* ------------------------------------------------------------------ *)
(** ** runChainedTask *)
Section ChainMore.
Import Task Chain.
Variable runner : nat -> string -> run_outcome.
Variable now : Z.

Lemma chain_step_raise (len i : nat) (s0 : subtask) (t0 : task) (tr0 : trace)
      (sts_t : list subtask) (m : string) :
  subtasks t0 = Some sts_t ->
  sub_outcome runner i (resolve_type (st_type s0)) = Raised m ->
  exists t' s',
    chain_step runner now len i s0 t0 tr0 =
      inr (t', snd (run_subtask runner i (resolve_type (st_type s0)) (tr_start i tr0))) /\
    subtasks t' = Some (<[i := s']> sts_t) /\
    status t' = "error" /\
    error t' = Some ("Subtask " +:+ show_nat (S i) +:+ " exception: " +:+ m) /\
    currentIndex t' = i /\
    st_status s' = "error" /\ st_error s' = Some m.
Proof.
  intros Hsts Hout.
  unfold chain_step, run_subtask, sub_running. cbn [st_type].
  rewrite Hout. cbn. rewrite Hsts. cbn.
  eexists; eexists; split; [reflexivity|]. cbn.
  split; [rewrite list_insert_insert_eq; reflexivity|].
  repeat split.
Qed.

Lemma chain_loop_stops_raise (sts : list subtask) (k : nat) (s : subtask) (m : string) :
  sts !! k = Some s ->
  sub_outcome runner k (resolve_type (st_type s)) = Raised m ->
  (forall j s', j < k -> sts !! j = Some s' ->
     continues (sub_outcome runner j (resolve_type (st_type s'))) = true) ->
  forall n i t tr sts_t,
    i <= k -> k < i + n ->
    subtasks t = Some sts_t -> length sts_t = length sts ->
    (forall j, i <= j -> sts_t !! j = sts !! j) ->
    exists t' tr' sts' s',
      chain_loop runner now n i t tr = inr (t', tr') /\
      status t' = "error" /\
      error t' = Some ("Subtask " +:+ show_nat (S k) +:+ " exception: " +:+ m) /\
      currentIndex t' = k /\
      started tr' = app (started tr) (seq i (S k - i)) /\
      subtasks t' = Some sts' /\
      sts' !! k = Some s' /\ st_status s' = "error" /\ st_error s' = Some m /\
      (forall j, k < j -> sts' !! j = sts !! j).
Proof.
  intros Hk Hout Hprev.
  induction n as [|n IH]; intros i t tr sts_t Hik Hkn Hsts Hlen Hsame; [lia|].
  cbn [chain_loop]. rewrite Hsts.
  pose proof (lookup_lt_Some _ _ _ Hk) as Hklen.
  destruct (sts !! i) as [si|] eqn:Hi; [|apply lookup_ge_None in Hi; lia].
  rewrite (Hsame i (le_n i)), Hi.
  destruct (Nat.eq_dec i k) as [->|Hne].
  - rewrite Hi in Hk. injection Hk as ->.
    destruct (chain_step_raise (length sts_t) k s t tr sts_t m Hsts Hout)
      as [t' [s' [E [Hsub [Hst [Herr [Hci [Hss Hse]]]]]]]].
    rewrite E.
    exists t', (snd (run_subtask runner k (resolve_type (st_type s)) (tr_start k tr))),
      (<[k := s']> sts_t), s'.
    split; [reflexivity|].
    split; [exact Hst|]. split; [exact Herr|]. split; [exact Hci|].
    split; [rewrite started_run_subtask; cbn; replace (S k - k) with 1 by lia; reflexivity|].
    split; [exact Hsub|].
    split; [apply list_lookup_insert_eq; lia|].
    split; [exact Hss|]. split; [exact Hse|].
    intros j Hj. rewrite list_lookup_insert_ne by lia. apply Hsame. lia.
  - assert (Hc : continues (sub_outcome runner i (resolve_type (st_type si))) = true)
      by (apply (Hprev i si); [lia | exact Hi]).
    destruct (chain_step_continue runner now (length sts_t) i si t tr sts_t Hsts Hc)
      as [t1 [s1 [E [Hsub1 _]]]].
    rewrite E.
    destruct (IH (S i) t1 (snd (run_subtask runner i (resolve_type (st_type si)) (tr_start i tr)))
                (<[i := s1]> sts_t))
      as [t' [tr' [sts' [s' [E' [Hst [Herr [Hci [Hstarted [Hsub [Hk' [Hss [Hse Hrest]]]]]]]]]]]]];
      [lia | lia | exact Hsub1 | rewrite length_insert; exact Hlen
      | intros j Hj; rewrite list_lookup_insert_ne by lia; apply Hsame; lia |].
    rewrite E'.
    exists t', tr', sts', s'. split; [reflexivity|].
    split; [exact Hst|]. split; [exact Herr|]. split; [exact Hci|].
    split.
    { rewrite Hstarted, started_run_subtask. cbn.
      replace (S k - i) with (S (S k - S i)) by lia. cbn.
      rewrite <- app_assoc. reflexivity. }
    auto.
Qed.

Lemma chain_loop_started_all (sts : list subtask) :
  (forall j s, sts !! j = Some s ->
     continues (sub_outcome runner j (resolve_type (st_type s))) = true) ->
  forall n i t0 tr sts_t,
    i + n = length sts -> subtasks t0 = Some sts_t -> length sts_t = length sts ->
    (forall j, i <= j -> sts_t !! j = sts !! j) ->
    exists t1 tr1, chain_loop runner now n i t0 tr = inl (t1, tr1) /\
                   started tr1 = app (started tr) (seq i n).
Proof.
  intros Hall.
  induction n as [|n IH]; intros i t0 tr sts_t Hn Hs0 Hl Hsame.
  - exists t0, tr. cbn. rewrite app_nil_r. auto.
  - cbn [chain_loop]. rewrite Hs0.
    destruct (sts !! i) as [si|] eqn:Hi; [|apply lookup_ge_None in Hi; lia].
    rewrite (Hsame i (le_n i)), Hi.
    destruct (chain_step_continue runner now (length sts_t) i si t0 tr sts_t Hs0 (Hall i si Hi))
      as [t1 [s1 [E [Hsub1 _]]]].
    rewrite E.
    destruct (IH (S i) t1 (snd (run_subtask runner i (resolve_type (st_type si)) (tr_start i tr)))
                (<[i := s1]> sts_t)) as [t2 [tr2 [E2 Hst2]]];
      [lia | exact Hsub1 | rewrite length_insert; exact Hl
      | intros j Hj; rewrite list_lookup_insert_ne by lia; apply Hsame; lia |].
    exists t2, tr2. split; [exact E2|].
    rewrite Hst2, started_run_subtask. cbn. rewrite <- app_assoc. reflexivity.
Qed.

End ChainMore.

(** An exception from the runner of subtask [k] (the earlier subtasks
    all going on) ends the chain at once: the subtask gets status
    ['error'] with the exception's message as its error, the parent
    ends in ['error'] with [currentIndex = k] and the message
    ["Subtask <k+1> exception: <message>"], only subtasks [0..k] were
    started, and the later subtasks are untouched. *)
Theorem chain_exception_abort (runner : nat -> string -> Chain.run_outcome) (now : Z)
        (t : Task.task) (sts : list Task.subtask) (k : nat) (s : Task.subtask) (m : string)
        (Hsts : Task.subtasks t = Some sts) (Hk : sts !! k = Some s)
        (Hraise : Chain.sub_outcome runner k (Task.resolve_type (Task.st_type s)) = Chain.Raised m)
        (Hprev : forall j s', j < k -> sts !! j = Some s' ->
                   Chain.continues (Chain.sub_outcome runner j (Task.resolve_type (Task.st_type s'))) = true) :
  let t' := fst (Chain.runChainedTask runner now t) in
  Task.status t' = "error" /\
  Task.error t' = Some ("Subtask " +:+ Task.show_nat (S k) +:+ " exception: " +:+ m) /\
  Task.currentIndex t' = k /\
  Chain.started (snd (Chain.runChainedTask runner now t)) = seq 0 (S k) /\
  (exists sts' s', Task.subtasks t' = Some sts' /\
     sts' !! k = Some s' /\ Task.st_status s' = "error" /\ Task.st_error s' = Some m /\
     forall j, k < j -> sts' !! j = sts !! j).
Proof.
  pose proof (lookup_lt_Some _ _ _ Hk) as Hklen.
  destruct (chain_loop_stops_raise runner now sts k s m Hk Hraise Hprev
              (length sts) 0 t (Chain.mkTrace [] []) sts)
    as [t' [tr' [sts' [s' [E [Hst [Herr [Hci [Hstarted [Hsub [Hk' [Hss [Hse Hrest]]]]]]]]]]]]];
    [lia | lia | exact Hsts | reflexivity | reflexivity |].
  cbn zeta. unfold Chain.runChainedTask. rewrite Hsts, E. cbn [fst snd].
  split; [exact Hst|]. split; [exact Herr|]. split; [exact Hci|].
  split; [rewrite Hstarted; cbn; f_equal; lia|].
  exists sts', s'. auto.
Qed.

Definition sub_of (ty : string) : Task.subtask :=
  Task.mkSubtask ty (Task.mkParams None None None None None) "pending" [] None None None None None.

Definition chain_two : Task.task :=
  Task.mkTask "chained" None (Task.mkParams None None None None None) None "running" None []
              None None None None true (Some [sub_of "janus"; sub_of "workorder"]) 0.

Definition runner_second_raises (i : nat) (ty : string) : Chain.run_outcome :=
  if Nat.eqb i 1 then Chain.Raised "Navigation timeout"
  else Chain.Finished "completed" [] None None (Some "ok") None.

Lemma chain_exception_abort_witness :
  Task.subtasks chain_two = Some [sub_of "janus"; sub_of "workorder"] /\
  let t' := fst (Chain.runChainedTask runner_second_raises 9 chain_two) in
  Task.status t' = "error" /\
  Task.error t' = Some ("Subtask " +:+ Task.show_nat 2 +:+ " exception: " +:+ "Navigation timeout") /\
  Task.currentIndex t' = 1 /\
  Chain.started (snd (Chain.runChainedTask runner_second_raises 9 chain_two)) = seq 0 2 /\
  (exists sts' s', Task.subtasks t' = Some sts' /\
     sts' !! 1 = Some s' /\ Task.st_status s' = "error" /\
     Task.st_error s' = Some "Navigation timeout" /\
     forall j, 1 < j -> sts' !! j = [sub_of "janus"; sub_of "workorder"] !! j).
Proof.
  split; [reflexivity|].
  apply (chain_exception_abort runner_second_raises 9 chain_two [sub_of "janus"; sub_of "workorder"]
           1 (sub_of "workorder") "Navigation timeout").
  - reflexivity.
  - reflexivity.
  - reflexivity.
  - intros j s' Hj Hs. destruct j as [|j]; [|lia].
    cbn in Hs. injection Hs as <-. reflexivity.
Defined.

(** When no subtask's run ends in ['error'] or throws (a run may end
    in any other status, ['stopped'] included), the parent ends
    ['completed'] with stage "All subtasks completed" and result
    ["Completed <n> subtasks"] for its [n] subtasks; every subtask was
    started, in order, and keeps the status its run left. *)
Theorem chain_all_continue_completes (runner : nat -> string -> Chain.run_outcome) (now : Z)
        (t : Task.task) (sts : list Task.subtask)
        (Hsts : Task.subtasks t = Some sts)
        (Hall : forall j s, sts !! j = Some s ->
                  Chain.continues (Chain.sub_outcome runner j (Task.resolve_type (Task.st_type s))) = true) :
  let t' := fst (Chain.runChainedTask runner now t) in
  Task.status t' = "completed" /\
  Task.stage t' = Some "All subtasks completed" /\
  Task.result t' = Some ("Completed " +:+ Task.show_nat (length sts) +:+ " subtasks") /\
  Chain.started (snd (Chain.runChainedTask runner now t)) = seq 0 (length sts) /\
  (exists sts', Task.subtasks t' = Some sts' /\ length sts' = length sts /\
     forall j s, sts !! j = Some s -> exists s', sts' !! j = Some s' /\
       Task.st_status s' = Chain.outcome_status
                             (Chain.sub_outcome runner j (Task.resolve_type (Task.st_type s)))).
Proof.
  destruct (chain_loop_completes runner now sts Hall (length sts) 0 t (Chain.mkTrace [] []) sts)
    as [t1 [tr1 [sts' [Eloop [Hsub [Hlen [_ [Hafter _]]]]]]]];
    [reflexivity | exact Hsts | reflexivity | reflexivity |].
  destruct (chain_loop_started_all runner now sts Hall (length sts) 0 t (Chain.mkTrace [] []) sts)
    as [t2 [tr2 [E2 Hst2]]]; [reflexivity | exact Hsts | reflexivity | reflexivity |].
  rewrite Eloop in E2. injection E2 as <- <-.
  cbn zeta. unfold Chain.runChainedTask. rewrite Hsts, Eloop. cbn [fst snd].
  split; [reflexivity|]. split; [reflexivity|]. split; [reflexivity|].
  split; [exact Hst2|].
  exists sts'. split; [exact Hsub|]. split; [exact Hlen|].
  intros j s Hs. apply Hafter; [lia | exact Hs].
Qed.

Definition runner_first_stopped (i : nat) (ty : string) : Chain.run_outcome :=
  if Nat.eqb i 0 then Chain.Finished "stopped" [] None None None None
  else Chain.Finished "completed" [] None None (Some "ok") None.

Lemma chain_all_continue_completes_witness :
  Task.subtasks chain_two = Some [sub_of "janus"; sub_of "workorder"] /\
  let t' := fst (Chain.runChainedTask runner_first_stopped 9 chain_two) in
  Task.status t' = "completed" /\
  Task.stage t' = Some "All subtasks completed" /\
  Task.result t' = Some ("Completed " +:+ Task.show_nat 2 +:+ " subtasks") /\
  Chain.started (snd (Chain.runChainedTask runner_first_stopped 9 chain_two)) = seq 0 2 /\
  (exists sts', Task.subtasks t' = Some sts' /\ length sts' = 2 /\
     forall j s, [sub_of "janus"; sub_of "workorder"] !! j = Some s ->
       exists s', sts' !! j = Some s' /\
       Task.st_status s' = Chain.outcome_status
         (Chain.sub_outcome runner_first_stopped j (Task.resolve_type (Task.st_type s)))).
Proof.
  split; [reflexivity|].
  apply (chain_all_continue_completes runner_first_stopped 9 chain_two
           [sub_of "janus"; sub_of "workorder"]).
  - reflexivity.
  - intros j s Hs. destruct j as [|[|j]]; cbn in Hs; try discriminate; injection Hs as <-;
      reflexivity.
Defined.

(* ------------------------------------------------------------------ *)
(** ** Stop route *)
Section StopMore.
Import Task Store Stop.

Lemma string_length_append (s1 s2 : string) :
  String.length (s1 ++ s2) = String.length s1 + String.length s2.
Proof. induction s1 as [|c s1 IH]; [reflexivity|]. simpl. rewrite IH. reflexivity. Qed.

Lemma subtask_key_ne (taskId : string) (i : nat) : subtask_key taskId i <> taskId.
Proof.
  unfold subtask_key. intros H. apply (f_equal String.length) in H.
  rewrite !string_length_append in H. cbn in H. lia.
Qed.

(** [close_entry] removes the key and force-kills only the process of
    the entry it removed, when closing it failed. *)
Lemma close_entry_spec (closes : nat -> bool) (key : string)
      (rb : gmap string browser_info) (kl : list nat) :
  let '(rb', kl') := close_entry closes key rb kl in
  rb' = delete key rb /\
  exists extra, kl' = app kl extra /\
    forall p, In p extra -> exists bi, rb !! key = Some bi /\ bi_pid bi = Some p /\
                                       closes (bi_browser bi) = false.
Proof.
  unfold close_entry. destruct (rb !! key) as [bi|] eqn:Hk.
  - split; [reflexivity|].
    destruct (closes (bi_browser bi)) eqn:Hc.
    + exists []. split; [symmetry; apply app_nil_r|]. intros p [].
    + destruct (bi_pid bi) as [[|q]|] eqn:Hp.
      * exists []. split; [symmetry; apply app_nil_r|]. intros p [].
      * exists [S q]. split; [reflexivity|]. intros p [<-|[]]. exists bi. auto.
      * exists []. split; [symmetry; apply app_nil_r|]. intros p [].
  - split; [symmetry; apply delete_id; exact Hk|].
    exists []. split; [symmetry; apply app_nil_r|]. intros p [].
Qed.

Definition loop_keys (taskId : string) (i left : nat) : list string :=
  map (subtask_key taskId) (seq i left).

Lemma stop_loop_spec (closes : nat -> bool) (now : Z) (taskId : string) (left : nat) :
  forall i sts tm rb kl, i + left = length sts ->
  let '(sts', tm', rb', kl') := stop_loop closes now taskId left i sts tm rb kl in
  sts' = app (take i sts) (map (stop_sub now) (drop i sts)) /\
  (forall k, In k (loop_keys taskId i left) -> rb' !! k = None /\ tm' !! k = None) /\
  (forall k, ~ In k (loop_keys taskId i left) -> rb' !! k = rb !! k /\ tm' !! k = tm !! k) /\
  exists extra, kl' = app kl extra /\
    forall p, In p extra -> exists k bi, In k (loop_keys taskId i left) /\
      rb !! k = Some bi /\ bi_pid bi = Some p /\ closes (bi_browser bi) = false.
Proof.
  induction left as [|left IH]; intros i sts tm rb kl Hlen.
  - cbn. rewrite Nat.add_0_r in Hlen. subst i. rewrite drop_all, firstn_all. cbn.
    split; [symmetry; apply app_nil_r|]. split; [intros k []|].
    split; [auto|]. exists []. split; [symmetry; apply app_nil_r|]. intros p [].
  - cbn [stop_loop].
    pose proof (close_entry_spec closes (subtask_key taskId i) rb kl) as Hc.
    destruct (close_entry closes (subtask_key taskId i) rb kl) as [rb1 kl1].
    destruct Hc as [Hrb1 [ex1 [Hkl1 Hex1]]].
    assert (Hi : i < length sts) by lia.
    destruct (lookup_lt_is_Some_2 sts i Hi) as [s Hs]. rewrite Hs.
    set (sts1 := <[i := stop_sub now s]> sts).
    set (tm1 := match tm !! subtask_key taskId i with
                | Some _ => delete (subtask_key taskId i) tm | None => tm end).
    assert (Htm1 : tm1 = delete (subtask_key taskId i) tm).
    { unfold tm1. destruct (tm !! subtask_key taskId i) eqn:E; [reflexivity|].
      symmetry. apply delete_id. exact E. }
    assert (Hlen1 : S i + left = length sts1) by (unfold sts1; rewrite length_insert; lia).
    specialize (IH (S i) sts1 tm1 rb1 kl1 Hlen1).
    destruct (stop_loop closes now taskId left (S i) sts1 tm1 rb1 kl1)
      as [[[sts' tm'] rb'] kl'].
    destruct IH as [Hsts [Hin [Hout [ex2 [Hkl2 Hex2]]]]].
    split; [|split; [|split]].
    + rewrite Hsts. unfold sts1.
      rewrite (take_S_r _ _ (stop_sub now s)) by (apply list_lookup_insert_eq; exact Hi).
      rewrite take_insert_ge by lia. rewrite drop_insert_lt by lia.
      rewrite (drop_S sts s i Hs). cbn. rewrite <- app_assoc. reflexivity.
    + intros k Hk. unfold loop_keys in Hk. cbn [seq map] in Hk. destruct Hk as [<-|Hk].
      * destruct (in_dec string_dec (subtask_key taskId i) (loop_keys taskId (S i) left)) as [H|H].
        -- apply Hin. exact H.
        -- destruct (Hout _ H) as [-> ->]. rewrite Hrb1, Htm1, !lookup_delete_eq. auto.
      * apply Hin. exact Hk.
    + intros k Hk. unfold loop_keys in Hk. cbn [seq map] in Hk.
      assert (Hne : subtask_key taskId i <> k) by (intros E; apply Hk; left; exact E).
      assert (Hk' : ~ In k (loop_keys taskId (S i) left)) by (intros E; apply Hk; right; exact E).
      destruct (Hout _ Hk') as [-> ->]. rewrite Hrb1, Htm1, !lookup_delete_ne by exact Hne. auto.
    + exists (app ex1 ex2). split; [rewrite Hkl2, Hkl1; symmetry; apply app_assoc|].
      intros p Hp. apply in_app_or in Hp. destruct Hp as [Hp|Hp].
      * destruct (Hex1 p Hp) as [bi Hbi]. exists (subtask_key taskId i), bi.
        split; [left; reflexivity|exact Hbi].
      * destruct (Hex2 p Hp) as [k [bi [Hk [Hbi Hrest]]]]. exists k, bi.
        split; [right; exact Hk|]. split; [|exact Hrest].
        rewrite Hrb1 in Hbi. apply lookup_delete_Some in Hbi. apply Hbi.
Qed.

(** When the parent has no subtasks the [for] loop runs zero times, so
    the route's [if] is the loop over [task.subtasks || []]. *)
Lemma loop_or_skip (closes : nat -> bool) (now : Z) (taskId : string) (t : task)
      (tm : gmap string Db.dbtask) (rb : gmap string browser_info) (kl : list nat) :
  let sts := match subtasks t with Some l => l | None => [] end in
  (if isChained t || truthy (subtasks t)
   then stop_loop closes now taskId (length sts) 0 sts tm rb kl
   else (sts, tm, rb, kl)) =
  stop_loop closes now taskId (length sts) 0 sts tm rb kl.
Proof.
  cbv zeta. destruct (subtasks t) as [l|]; cbn [truthy].
  - rewrite orb_true_r. reflexivity.
  - destruct (isChained t); reflexivity.
Qed.

End StopMore.


(** Stopping a running task releases its browsers: afterwards no
    browser is registered under the task id or under [<id>_sub<i>] for
    any of its subtasks, the temporary subtask tasks are gone from the
    task map, every other browser entry and task is kept, and a process
    is force-killed only when it is the recorded pid of one of those
    entries and closing that browser failed. *)
Theorem stop_releases_browsers (taskId : string) (now : Z) (closes : nat -> bool)
        (sw : Stop.sworld) (dt : Db.dbtask)
        (Ht : Store.tasks (Stop.world_of sw) !! taskId = Some dt)
        (Hrun : Task.status (Db.d_task dt) = "running") :
  let n := length (match Task.subtasks (Db.d_task dt) with Some l => l | None => [] end) in
  let keys := loop_keys taskId 0 n in
  let sw' := snd (Stop.stop taskId now closes sw) in
  Stop.runningBrowsers sw' !! taskId = None /\
  (forall k, In k keys ->
     Stop.runningBrowsers sw' !! k = None /\ Store.tasks (Stop.world_of sw') !! k = None) /\
  (forall k, k <> taskId -> ~ In k keys ->
     Stop.runningBrowsers sw' !! k = Stop.runningBrowsers sw !! k /\
     Store.tasks (Stop.world_of sw') !! k = Store.tasks (Stop.world_of sw) !! k) /\
  exists extra, Stop.killed sw' = app (Stop.killed sw) extra /\
    forall p, In p extra -> exists k bi, (k = taskId \/ In k keys) /\
      Stop.runningBrowsers sw !! k = Some bi /\ Stop.bi_pid bi = Some p /\
      closes (Stop.bi_browser bi) = false.
Proof.
  cbv zeta. unfold Stop.stop. rewrite Ht. cbv zeta. rewrite Hrun, String.eqb_refl. cbn [negb].
  pose proof (close_entry_spec closes taskId (Stop.runningBrowsers sw) (Stop.killed sw)) as Hc.
  destruct (Stop.close_entry closes taskId (Stop.runningBrowsers sw) (Stop.killed sw))
    as [rb1 kl1].
  destruct Hc as [Hrb1 [ex1 [Hkl1 Hex1]]].
  rewrite loop_or_skip.
  set (sts := match Task.subtasks (Db.d_task dt) with Some l => l | None => [] end).
  pose proof (stop_loop_spec closes now taskId (length sts) 0 sts
                (Store.tasks (Stop.world_of sw)) rb1 kl1 eq_refl) as Hl.
  destruct (Stop.stop_loop closes now taskId (length sts) 0 sts
              (Store.tasks (Stop.world_of sw)) rb1 kl1) as [[[sts' tm] rb2] kl2].
  destruct Hl as [_ [Hin [Hout [ex2 [Hkl2 Hex2]]]]].
  cbn [snd Stop.runningBrowsers Stop.killed Stop.world_of Store.tasks].
  assert (Hnot : ~ In taskId (loop_keys taskId 0 (length sts))).
  { unfold loop_keys. intros Hk. apply in_map_iff in Hk. destruct Hk as [i [Hi _]].
    exact (subtask_key_ne taskId i Hi). }
  split; [|split; [|split]].
  - destruct (Hout taskId Hnot) as [-> _]. rewrite Hrb1. apply lookup_delete_eq.
  - intros k Hk. destruct (Hin k Hk) as [Hr Htm]. split; [exact Hr|].
    assert (Hne : taskId <> k) by (intros <-; exact (Hnot Hk)).
    rewrite lookup_insert_ne by exact Hne. exact Htm.
  - intros k Hne Hk. destruct (Hout k Hk) as [Hr Htm].
    rewrite lookup_insert_ne by congruence. rewrite Hr, Htm, Hrb1.
    rewrite lookup_delete_ne by congruence. auto.
  - exists (app ex1 ex2). split; [rewrite Hkl2, Hkl1; symmetry; apply app_assoc|].
    intros p Hp. apply in_app_or in Hp. destruct Hp as [Hp|Hp].
    + destruct (Hex1 p Hp) as [bi Hbi]. exists taskId, bi. split; [left; reflexivity|exact Hbi].
    + destruct (Hex2 p Hp) as [k [bi [Hk [Hbi Hrest]]]]. exists k, bi.
      split; [right; exact Hk|]. split; [|exact Hrest].
      rewrite Hrb1 in Hbi. apply lookup_delete_Some in Hbi. apply Hbi.
Qed.

Lemma stop_releases_browsers_witness :
  let t := Task.mkTask "janus_mini_update" None (Task.mkParams None None None None None)
             None "running" None [] (Some 0%Z) None None None true
             (Some [Task.mkSubtask "janus_mini_update" (Task.mkParams None None None None None)
                      "running" [] None None None None None]) 0 in
  let sw := Stop.mkSWorld (Store.mkWorld {[ "t1" := Db.mkDbTask t None ]} ∅ ∅ [])
              {[ "t1" := Stop.mkBrowserInfo 1 (Some 7) ]} [] in
  (Store.tasks (Stop.world_of sw) !! "t1" = Some (Db.mkDbTask t None) /\
   Task.status (Db.d_task (Db.mkDbTask t None)) = "running") /\
  Stop.runningBrowsers (snd (Stop.stop "t1" 5%Z (fun _ => false) sw)) !! "t1" = None.
Proof.
  intros t sw. split; [split; reflexivity|].
  exact (proj1 (stop_releases_browsers "t1" 5%Z (fun _ => false) sw (Db.mkDbTask t None)
                  eq_refl eq_refl)).
Defined.

(* ------------------------------------------------------------------ *)
(** ** Task rows *)
Section DbMore.
Import Task Db.

Lemma or_null_idem (o : option string) : or_null (or_null o) = or_null o.
Proof. destruct o as [[|c s]|]; reflexivity. Qed.




End DbMore.


(** The metadata a task carries (a task read from the database) is
    spread after the current values when the task is saved, so its
    [subtasks] and [currentIndex] win: reading the row back gives the
    subtasks and index of the old metadata, whatever the task's current
    ones are. *)
Theorem saved_metadata_wins (taskId : string) (t : Task.task) (m : Db.meta)
        (db : gmap string Db.row) (l : list Task.subtask) (n : nat)
        (Hs : m !! "subtasks" = Some (Db.JSubtasks l))
        (Hi : m !! "currentIndex" = Some (Db.JNum n)) :
  exists t', Db.getTaskFromDb taskId (Db.saveTaskToDb taskId (Db.mkDbTask t (Some m)) db)
             = Some (Db.mkDbTask t' (Some (m ∪ Db.fresh_meta t))) /\
    Task.subtasks t' = Some l /\ Task.currentIndex t' = n.
Proof.
  unfold Db.getTaskFromDb, Db.saveTaskToDb.
  assert (Hs' : (m ∪ Db.fresh_meta t) !! "subtasks" = Some (Db.JSubtasks l))
    by (apply lookup_union_Some_l; exact Hs).
  assert (Hi' : (m ∪ Db.fresh_meta t) !! "currentIndex" = Some (Db.JNum n))
    by (apply lookup_union_Some_l; exact Hi).
  destruct (db !! taskId); rewrite lookup_insert_eq; cbn [option_map];
    eexists; (split; [reflexivity|]); unfold Db.dbRowToTask, Db.row_of, Db.save_meta;
    cbn [Db.r_metadata Db.d_metadata Db.d_task Task.subtasks Task.currentIndex];
    rewrite Hs', Hi'; split; reflexivity.
Qed.

Lemma saved_metadata_wins_witness :
  let sub := Task.mkSubtask "janus_mini_update" (Task.mkParams None None None None None)
               "completed" [] None None None None None in
  let m : Db.meta := <["subtasks" := Db.JSubtasks [sub]]> (<["currentIndex" := Db.JNum 1]> ∅) in
  let t := Task.mkTask "janus_mini_update" None (Task.mkParams None None None None None)
             None "completed" None [] None None None None false None 0 in
  (m !! "subtasks" = Some (Db.JSubtasks [sub]) /\ m !! "currentIndex" = Some (Db.JNum 1)) /\
  exists t', Db.getTaskFromDb "t1" (Db.saveTaskToDb "t1" (Db.mkDbTask t (Some m)) ∅)
             = Some (Db.mkDbTask t' (Some (m ∪ Db.fresh_meta t))) /\
    Task.subtasks t' = Some [sub] /\ Task.currentIndex t' = 1%nat.
Proof.
  intros sub m t. split; [split; reflexivity|].
  exact (saved_metadata_wins "t1" t m ∅ [sub] 1 eq_refl eq_refl).
Defined.

(* ------------------------------------------------------------------ *)
(** ** Orphaned browser cleanup *)
Section CleanupMore.
Import Task Stop Cleanup.

Lemma filter_bool_List {A} (f : A -> bool) (l : list A) :
  filter (fun x => f x) l = List.filter f l.
Proof.
  induction l as [|x l IH]; [reflexivity|]. rewrite filter_cons. cbn [List.filter].
  case_decide as H; destruct (f x) eqn:E; cbn in H; try contradiction.
  - rewrite IH. reflexivity.
  - exact IH.
Qed.

Lemma List_filter_filter {A} (f g : A -> bool) (l : list A) :
  List.filter g (List.filter f l) = List.filter (fun x => f x && g x) l.
Proof.
  induction l as [|x l IH]; [reflexivity|]. cbn [List.filter].
  destruct (f x); cbn [andb List.filter]; [destruct (g x)|]; rewrite IH; reflexivity.
Qed.

Lemma kill_loop_spec (kill_ok : string -> bool) (known pids : list string) :
  kill_loop kill_ok known pids =
  let tried := List.filter (fun p => negb (existsb (String.eqb p) known)) pids in
  (length (List.filter kill_ok tried), tried).
Proof.
  induction pids as [|pid rest IH]; [reflexivity|]. cbn [kill_loop]. rewrite IH.
  cbn zeta. cbn [List.filter].
  destruct (existsb (String.eqb pid) known); cbn [negb]; [reflexivity|].
  cbn [List.filter]. destruct (kill_ok pid); reflexivity.
Qed.

Lemma knownPids_tracked (rb : gmap string browser_info) (poolPid : option nat)
      (k : string) (bi : browser_info) (p : nat) :
  rb !! k = Some bi -> bi_pid bi = Some (S p) -> In (show_nat (S p)) (knownPids rb poolPid).
Proof.
  intros Hk Hp. unfold knownPids. apply in_or_app. left. apply in_concat.
  exists [show_nat (S p)]. split; [|left; reflexivity].
  apply in_map_iff. exists (k, bi). split; [cbn; rewrite Hp; reflexivity|].
  apply list_elem_of_In, elem_of_map_to_list. exact Hk.
Qed.

Lemma knownPids_pool (rb : gmap string browser_info) (p : nat) :
  In (show_nat (S p)) (knownPids rb (Some (S p))).
Proof. unfold knownPids. apply in_or_app. right. left. reflexivity. Qed.

End CleanupMore.

(** [cleanupOrphanedBrowsers] tries to kill exactly the non-empty
    process ids of the listing that are not known, in listing order, and
    reports how many of those kills succeeded; so it never kills the
    process of a tracked task browser nor the pool's browser. *)
Theorem cleanup_kills_only_untracked (kill_ok : string -> bool) (lines : list string)
        (rb : gmap string Stop.browser_info) (poolPid : option nat) :
  let '(n, tried) := Cleanup.cleanupOrphanedBrowsers kill_ok lines rb poolPid in
  tried = List.filter (fun p => negb (String.eqb p "") &&
                                negb (existsb (String.eqb p) (Cleanup.knownPids rb poolPid)))
                      lines /\
  n = length (List.filter kill_ok tried) /\
  (forall k bi p, rb !! k = Some bi -> Stop.bi_pid bi = Some (S p) ->
     ~ In (Task.show_nat (S p)) tried) /\
  (forall p, poolPid = Some (S p) -> ~ In (Task.show_nat (S p)) tried).
Proof.
  unfold Cleanup.cleanupOrphanedBrowsers. rewrite filter_bool_List, kill_loop_spec.
  cbn zeta. rewrite (List_filter_filter _ _ lines).
  set (tried := List.filter _ lines).
  split; [reflexivity|]. split; [reflexivity|].
  assert (Hno : forall q, In q (Cleanup.knownPids rb poolPid) -> ~ In q tried).
  { intros q Hq Ht. unfold tried in Ht. apply filter_In in Ht. destruct Ht as [_ Ht].
    apply andb_prop in Ht. destruct Ht as [_ Ht].
    assert (He : existsb (String.eqb q) (Cleanup.knownPids rb poolPid) = true).
    { apply existsb_exists. exists q. split; [exact Hq|apply String.eqb_refl]. }
    rewrite He in Ht. discriminate Ht. }
  split.
  - intros k bi p Hk Hp. apply Hno. exact (knownPids_tracked rb poolPid k bi p Hk Hp).
  - intros p ->. apply Hno. apply knownPids_pool.
Qed.

(** The cleanup interval skips its run exactly when some task is
    running or the browser pool is in use. *)
Theorem cleanup_tick_skips (kill_ok : string -> bool) (lines : list string)
        (tasks : gmap string Task.task) (rb : gmap string Stop.browser_info)
        (bp : Pool.pool) :
  Cleanup.cleanup_tick kill_ok lines tasks rb bp = None <->
  (exists k t, tasks !! k = Some t /\ Task.status t = "running") \/ Pool.inUse bp = true.
Proof.
  unfold Cleanup.cleanup_tick.
  destruct (existsb (fun kv => String.eqb (Task.status kv.2) "running") (map_to_list tasks))
    eqn:Hr.
  - split; [intros _|reflexivity]. left.
    apply existsb_exists in Hr. destruct Hr as [[k t] [Hin Hs]].
    exists k, t. split; [apply elem_of_map_to_list, list_elem_of_In; exact Hin|].
    apply String.eqb_eq. exact Hs.
  - destruct (Pool.inUse bp); [split; [intros _; right; reflexivity|reflexivity]|].
    split; [discriminate|]. intros [[k [t [Hk Hs]]]|H]; [|discriminate H].
    exfalso. assert (Hx : existsb (fun kv => String.eqb (Task.status kv.2) "running")
                                  (map_to_list tasks) = true).
    { apply existsb_exists. exists (k, t). split.
      - apply list_elem_of_In, elem_of_map_to_list. exact Hk.
      - cbn. rewrite Hs. reflexivity. }
    congruence.
Qed.
